(** * Valetudo timer scheduler: [backend/lib/scheduler/Scheduler.js]

    A shallow embedding of the [Scheduler] class: the tick handler
    [evaluateTimers] (sync gate, watermark re-derivation, drain loop, timer
    matching) and the asynchronous pipeline [executeTimer].

    Modelling conventions.
    - Epoch milliseconds are [Z]: [Date.prototype.getTime] yields integers of
      magnitude at most 8.64e15, on which double arithmetic is exact.
    - Values read from the configuration whose dynamic type the code tests
      ([=== true], [switch], optional chaining) are [JS.value]s.
    - An [async] function body is a tree of type [Async]: it runs
      synchronously up to its first [await], where the awaited device
      operation has already been invoked, and is resumed by the settlement
      of that operation. *)

From Equations Require Import Equations.
From Stdlib Require Import ZArith List Sorted Lia Bool String DecimalString.
Import ListNotations.
Open Scope string_scope.
Open Scope Z_scope.
Open Scope list_scope.

(** ** JavaScript values *)

Module JS.

#[local] Unset Elimination Schemes.

Inductive value : Type :=
| undefined
| null
| boolean (b : bool)
| number (n : Z)
| str (s : string)
| array (elements : list value).

#[local] Set Elimination Schemes.

(** [===] where at least one operand is a primitive literal or constant,
    the only use in the scheduler; two arrays are distinct references
    there, so they never compare equal. *)
Definition strict_equals (a b : value) : bool :=
  match a, b with
  | undefined, undefined => true
  | null, null => true
  | boolean x, boolean y => Bool.eqb x y
  | number x, number y => Z.eqb x y
  | str x, str y => String.eqb x y
  | _, _ => false
  end.

(** [ToString], as applied by [+] with a string operand. A number is printed
    with all its digits, as JavaScript prints an integer of magnitude below
    1e21; from there on JavaScript prints an exponent. *)
Fixpoint ToString (v : value) : string :=
  match v with
  | undefined => "undefined"
  | null => "null"
  | boolean true => "true"
  | boolean false => "false"
  | number n => NilZero.string_of_int (Z.to_int n)
  | str s => s
  | array l =>
      (fix join (l : list value) : string :=
         match l with
         | [] => ""
         | x :: r =>
             (match x with
              | undefined | null => ""
              | _ => ToString x
              end ++ match r with [] => "" | _ :: _ => "," ++ join r end)%string
         end) l
  end.

Inductive Error : Type :=
| TypeError (message : string)
| Rejection (reason : string).

End JS.

(** ** UTC field extraction of [Date] *)

Module UTCDate.

Definition msPerDay : Z := 86400000.
Definition msPerHour : Z := 3600000.
Definition msPerMinute : Z := 60000.

(** ECMAScript: WeekDay(t) = (Day(t) + 4) modulo 7, 0 being Sunday. *)
Definition getUTCDay (t : Z) : Z := (t / msPerDay + 4) mod 7.
Definition getUTCHours (t : Z) : Z := (t / msPerHour) mod 24.
Definition getUTCMinutes (t : Z) : Z := (t / msPerMinute) mod 60.

End UTCDate.

(** ** Data model *)

Definition MS_PER_MIN : Z := 60 * 1000.

Record ActionParams : Type := {
  segment_ids : JS.value;
  iterations : JS.value;
  custom_order : JS.value
}.

Record ActionDefinition : Type := {
  action_type : JS.value;
  action_params : option ActionParams
}.

Record PreActionParams : Type := { value : JS.value }.

Record PreActionDefinition : Type := {
  pre_action_type : JS.value;
  pre_action_params : option PreActionParams
}.

(** [action] is [None] when the property is undefined, and so are
    [action_params] and [pre_action_params]; [pre_actions] is [None] when
    [Array.isArray] answers false. A property that holds null takes the
    same paths as an undefined one; the [TypeError] of reading through it
    then names null instead of undefined in its text. *)
Record ValetudoTimer : Type := {
  id : string;
  enabled : JS.value;
  dow : list Z;
  hour : Z;
  minute : Z;
  action : option ActionDefinition;
  pre_actions : option (list PreActionDefinition)
}.

(** The tag tables [ValetudoTimer.ACTION_TYPE] and
    [ValetudoTimer.PRE_ACTION_TYPE]; the entity file is not part of the
    sources at hand, so the strings are parameters of the development. *)
Record TimerTypes : Type := {
  FULL_CLEANUP : string;
  SEGMENT_CLEANUP : string;
  FAN_SPEED_CONTROL : string;
  WATER_USAGE_CONTROL : string;
  OPERATION_MODE_CONTROL : string
}.

Inductive NTPClientState : Type :=
| ValetudoNTPClientSyncedState
| ValetudoNTPClientDisabledState
| ValetudoNTPClientOtherState.

(** [timers] lists the store in property enumeration order. *)
Record Configuration : Type := {
  embedded : JS.value;
  timers : list (string * ValetudoTimer)
}.

Definition Object_values (store : list (string * ValetudoTimer)) : list ValetudoTimer :=
  map snd store.

(** The handler objects built by [executeTimer], each with a [run] method. *)
Inductive TimerAction : Type :=
| ValetudoFullCleanupTimerAction
| ValetudoSegmentCleanupTimerAction (segmentIds iterations customOrder : JS.value).

Inductive TimerPreAction : Type :=
| ValetudoFanSpeedControlTimerPreAction (v : JS.value)
| ValetudoWaterUsageControlTimerPreAction (v : JS.value)
| ValetudoOperationModeControlTimerPreAction (v : JS.value).

(** A device operation is one call of [run] on a handler object. *)
Inductive DeviceOp : Type :=
| RunPreAction (p : TimerPreAction)
| RunAction (a : TimerAction).

Inductive LogEntry : Type :=
| LogInfo (message : string)
| LogWarn (message detail : string)
| LogError (message : string) (e : JS.Error).

(** ** Asynchronous function bodies *)

Inductive Settlement : Type :=
| Fulfilled
| Rejected (e : JS.Error).

Inductive Async (A : Type) : Type :=
| Ret (a : A)
| Throw (e : JS.Error)
| Logger_warn (message detail : string) (k : Async A)
| Await (op : DeviceOp) (k : Settlement -> Async A).

Arguments Ret {A} a.
Arguments Throw {A} e.
Arguments Logger_warn {A} message detail k.
Arguments Await {A} op k.

Fixpoint bind {A B : Type} (m : Async A) (f : A -> Async B) : Async B :=
  match m with
  | Ret a => f a
  | Throw e => Throw e
  | Logger_warn a b k => Logger_warn a b (bind k f)
  | Await op k => Await op (fun s => bind (k s) f)
  end.

Notation "x <- m ;; f" := (bind m (fun x => f))
  (at level 61, m at next level, right associativity).
Notation "m ;;; f" := (bind m (fun _ => f))
  (at level 61, right associativity).

(** [await x.run()]: a rejection is rethrown at the await. *)
Definition await_run (op : DeviceOp) : Async unit :=
  Await op (fun s => match s with Fulfilled => Ret tt | Rejected e => Throw e end).

(** Exit of a loop body: fall through, or [return] from the function. *)
Inductive Flow (A : Type) : Type :=
| Continue (a : A)
| Return.

Arguments Continue {A} a.
Arguments Return {A}.

(** ** Promises and tasks *)

(** State of the promise chain [executeTimer(...).catch(...)] of one
    dispatch: suspended at an [await]; settled with the reaction of the
    chain still queued as a microtask; or done. *)
Inductive PromiseState : Type :=
| Suspended (k : Settlement -> Async unit)
| Settled (s : Settlement)
| Done (s : Settlement).

(** One dispatched pipeline. [task_checkDate] and [task_invoked] are the
    instrumentation of the model: the minute instant the dispatch belongs
    to, and the device operations invoked so far, oldest first. *)
Record Task : Type := {
  task_timer : ValetudoTimer;
  task_checkDate : Z;
  task_invoked : list DeviceOp;
  task_promise : PromiseState
}.

(** What the scheduler acts on: the log, the dispatched pipelines, and the
    instants [new Date(this.nextScheduledCheckTime)] built by the drain
    loop, oldest first. *)
Record World : Type := {
  logger : list LogEntry;
  tasks : list Task;
  checkDates : list Z
}.

Module CheckTime.
Record t : Type := { dow : Z; hour : Z; minute : Z }.
End CheckTime.

(** The fields of [this] that [evaluateTimers] reads or writes. *)
Record Scheduler : Type := {
  config : Configuration;
  ntpClient : NTPClientState;
  nextScheduledCheckTime : option Z
}.

(** Runs an async body up to its first [await] or to its end: the log
    lines written, the device operation invoked (at most one), and the
    promise state reached. *)
Fixpoint advance (body : Async unit) : list LogEntry * list DeviceOp * PromiseState :=
  match body with
  | Ret _ => ([], [], Settled Fulfilled)
  | Throw e => ([], [], Settled (Rejected e))
  | Logger_warn a b k =>
      let '(log, ops, st) := advance k in (LogWarn a b :: log, ops, st)
  | Await op k => ([], [op], Suspended k)
  end.

(** The awaited device operation of a task settles. *)
Definition resume (task : Task) (s : Settlement) : Task * list LogEntry :=
  match task_promise task with
  | Suspended k =>
      let '(log, ops, st) := advance (k s) in
      ({| task_timer := task_timer task;
          task_checkDate := task_checkDate task;
          task_invoked := task_invoked task ++ ops;
          task_promise := st |}, log)
  | _ => (task, [])
  end.

(** Lines 78-80: the reaction [.catch(e => Logger.error(...))]. *)
Definition run_reaction (task : Task) : Task * list LogEntry :=
  match task_promise task with
  | Settled s =>
      ({| task_timer := task_timer task;
          task_checkDate := task_checkDate task;
          task_invoked := task_invoked task;
          task_promise := Done s |},
       match s with
       | Fulfilled => []
       | Rejected e =>
           [LogError ("Error while executing timer " ++ id (task_timer task))%string e]
       end)
  | _ => (task, [])
  end.

(** The microtask checkpoint that follows every macrotask. *)
Definition microtasks (w : World) : World :=
  {| logger := logger w ++ flat_map (fun task => snd (run_reaction task)) (tasks w);
     tasks := map (fun task => fst (run_reaction task)) (tasks w);
     checkDates := checkDates w |}.

Fixpoint settle_task (tid : nat) (s : Settlement) (ts : list Task)
  : list Task * list LogEntry :=
  match ts, tid with
  | [], _ => ([], [])
  | task :: rest, O => let '(task', log) := resume task s in (task' :: rest, log)
  | task :: rest, S n => let '(rest', log) := settle_task n s rest in (task :: rest', log)
  end.

(** A macrotask of the event loop other than the tick: the device
    operation awaited by pipeline number [tid] settles with [s]. *)
Definition settle (tid : nat) (s : Settlement) (w : World) : World :=
  let '(ts, log) := settle_task tid s (tasks w) in
  microtasks {| logger := logger w ++ log; tasks := ts; checkDates := checkDates w |}.

(** One task seen alone: its awaited operation settles, then the
    microtask checkpoint runs its reaction. *)
Definition task_settle (task : Task) (s : Settlement) : Task :=
  fst (run_reaction (fst (resume task s))).

Definition replay (task : Task) (settlements : list Settlement) : Task :=
  fold_left task_settle settlements task.

(** A run of the event loop after a tick: each event names the pipeline
    whose device operation settles, and how. *)
Definition run_events (events : list (nat * Settlement)) (w : World) : World :=
  fold_left (fun w ev => settle (fst ev) (snd ev) w) events w.

Definition settlements_for (tid : nat) (events : list (nat * Settlement)) : list Settlement :=
  map snd (filter (fun ev => Nat.eqb (fst ev) tid) events).

(** ** Vocabulary of the statements *)

(** The instants [w], [w + 60000], ... : [n] of them. *)
Definition minute_instants (w : Z) (n : nat) : list Z :=
  map (fun i => w + MS_PER_MIN * Z.of_nat i) (seq 0 n).

(** Number of instants of that progression strictly below [nowTime]. *)
Definition elapsed_minutes (w nowTime : Z) : nat :=
  Z.to_nat ((nowTime - w + (MS_PER_MIN - 1)) / MS_PER_MIN).

(** Number of leading fulfilled settlements. *)
Fixpoint fulfilled_prefix (settlements : list Settlement) : nat :=
  match settlements with
  | Fulfilled :: rest => S (fulfilled_prefix rest)
  | _ => O
  end.

Definition quiescent (task : Task) : Prop :=
  match task_promise task with
  | Settled _ => False
  | _ => True
  end.

(** What the outside world decides about one tick: the clock reading and
    the current contents of the collaborators [this.ntpClient] and
    [this.config]. *)
Record TickInput : Type := {
  tick_now : Z;
  tick_ntp : NTPClientState;
  tick_config : Configuration
}.

(** ** Sample data

    The tags are those of Valetudo's timer entity. The instant
    1700000000000 is Tuesday 2023-11-14, 22:13:20 UTC. *)

Module Sample.

Definition types : TimerTypes :=
  {| FULL_CLEANUP := "full_cleanup";
     SEGMENT_CLEANUP := "segment_cleanup";
     FAN_SPEED_CONTROL := "fan_speed_control";
     WATER_USAGE_CONTROL := "water_usage_control";
     OPERATION_MODE_CONTROL := "operation_mode_control" |}.

Definition full_cleanup : ActionDefinition :=
  {| action_type := JS.str "full_cleanup"; action_params := None |}.

Definition segment_cleanup : ActionDefinition :=
  {| action_type := JS.str "segment_cleanup";
     action_params :=
       Some {| segment_ids := JS.array [JS.str "17"; JS.str "18"];
               iterations := JS.number 2;
               custom_order := JS.boolean true |} |}.

Definition pre (type : string) (v : string) : PreActionDefinition :=
  {| pre_action_type := JS.str type;
     pre_action_params := Some {| value := JS.str v |} |}.

Definition timer (name : string) (on : JS.value) (a : option ActionDefinition)
  (pres : option (list PreActionDefinition)) : ValetudoTimer :=
  {| id := name; enabled := on; dow := [2; 4]; hour := 22; minute := 13;
     action := a; pre_actions := pres |}.

Definition plain : ValetudoTimer :=
  timer "plain" (JS.boolean true) (Some full_cleanup) (Some []).

Definition staged : ValetudoTimer :=
  timer "staged" (JS.boolean true) (Some segment_cleanup)
    (Some [pre "operation_mode_control" "mop"; pre "fan_speed_control" "high"]).

Definition disabled : ValetudoTimer :=
  timer "disabled" (JS.boolean false) (Some full_cleanup) (Some []).

Definition bad_pre_action : ValetudoTimer :=
  timer "bad_pre_action" (JS.boolean true) (Some full_cleanup)
    (Some [pre "fan_speed_control" "low"; pre "siren" "on"; pre "water_usage_control" "low"]).

Definition bad_action : ValetudoTimer :=
  timer "bad_action" (JS.boolean true)
    (Some {| action_type := JS.str "goto_location"; action_params := None |})
    (Some [pre "fan_speed_control" "low"]).

Definition no_action : ValetudoTimer :=
  timer "no_action" (JS.boolean true) None (Some [pre "fan_speed_control" "low"]).

Definition no_pre_actions : ValetudoTimer :=
  timer "no_pre_actions" (JS.boolean true) (Some full_cleanup) None.

Definition store (l : list ValetudoTimer) : list (string * ValetudoTimer) :=
  map (fun td => (id td, td)) l.

Definition configuration (flag : JS.value) (l : list ValetudoTimer) : Configuration :=
  {| embedded := flag; timers := store l |}.

Definition scheduler (flag : JS.value) (ntp : NTPClientState) (l : list ValetudoTimer)
  (watermark : option Z) : Scheduler :=
  {| config := configuration flag l;
     ntpClient := ntp;
     nextScheduledCheckTime := watermark |}.

Definition quiet : World := {| logger := []; tasks := []; checkDates := [] |}.

Definition now : Z := 1700000001234.

(** Two minutes and one millisecond after [now]. *)
Definition later : Z := 1700000121235.

Definition everyone : list ValetudoTimer :=
  [staged; plain; disabled; no_action; bad_action].

Definition fresh : Scheduler :=
  scheduler (JS.boolean true) ValetudoNTPClientSyncedState everyone None.

Definition running : Scheduler :=
  scheduler (JS.boolean true) ValetudoNTPClientSyncedState everyone (Some now).

Definition unsynced : Scheduler :=
  scheduler (JS.boolean true) ValetudoNTPClientOtherState everyone (Some now).

(** [embedded] set to the string, not the boolean. *)
Definition unsynced_elsewhere : Scheduler :=
  scheduler (JS.str "true") ValetudoNTPClientOtherState everyone (Some now).

Definition first_tick : TickInput :=
  {| tick_now := now;
     tick_ntp := ValetudoNTPClientSyncedState;
     tick_config := configuration (JS.boolean true) everyone |}.

Definition second_tick : TickInput :=
  {| tick_now := 1700000061300;
     tick_ntp := ValetudoNTPClientSyncedState;
     tick_config := configuration (JS.boolean true) everyone |}.

End Sample.

(** ** The Roborock S5 robot class

    The second source file: [RoborockS5ValetudoRobot]. Its base class, the
    capabilities and the quirk factory are not among the sources, so the
    embedding covers what the file computes by itself: the model test, the
    fan speed table and the options handed to the base constructor. *)

Module RoborockS5.

(** What a variable can hold, where the code tells objects from
    primitives. *)
Inductive Ref : Type :=
| Primitive (v : JS.value)
| Object (properties : list (string * JS.value)).

Definition ToBoolean (r : Ref) : bool :=
  match r with
  | Object _ => true
  | Primitive JS.undefined | Primitive JS.null => false
  | Primitive (JS.boolean b) => b
  | Primitive (JS.number n) => negb (n =? 0)
  | Primitive (JS.str s) => negb (String.eqb s "")
  | Primitive (JS.array _) => true
  end.

(** The read [deviceConf.model] on a value that is neither null nor
    undefined: no primitive and no array has such a property. *)
Definition dot_model (r : Ref) : JS.value :=
  match r with
  | Object properties =>
      match find (fun kv => String.eqb (fst kv) "model") properties with
      | Some kv => snd kv
      | None => JS.undefined
      end
  | Primitive _ => JS.undefined
  end.

(** Lines 57-61, on the value [READ_DEVICE_CONF] returned. *)
Definition IMPLEMENTATION_AUTO_DETECTION_HANDLER (deviceConf : Ref) : bool :=
  let conjunction :=
    if ToBoolean deviceConf
    then Primitive (JS.boolean
                      (JS.strict_equals (dot_model deviceConf) (JS.str "roborock.vacuum.s5")))
    else deviceConf in
  negb (negb (ToBoolean conjunction)).

Definition getModelName : string := "S5".

(** Objects with string keys as association lists in property order. *)
Fixpoint define {V : Type} (key : string) (v : V) (o : list (string * V))
  : list (string * V) :=
  match o with
  | [] => [(key, v)]
  | (key', v') :: rest =>
      if String.eqb key' key then (key, v) :: rest else (key', v') :: define key v rest
  end.

Fixpoint property {V : Type} (o : list (string * V)) (key : string) : option V :=
  match o with
  | [] => None
  | (key', v) :: rest => if String.eqb key' key then Some v else property rest key
  end.

(** [Object.assign(target, ...sources)]. *)
Definition Object_assign {V : Type} (target : list (string * V))
  (sources : list (list (string * V))) : list (string * V) :=
  fold_left
    (fun target source => fold_left (fun t kv => define (fst kv) (snd kv) t) source target)
    sources target.

(** The keys [PresetSelectionStateAttribute.INTENSITY], declared in the
    entities, which are not among the sources. *)
Record INTENSITY : Type := {
  LOW : string;
  MEDIUM : string;
  HIGH : string;
  MAX : string;
  OFF : string
}.

(** Lines 64-70. *)
Definition FAN_SPEEDS (I : INTENSITY) : list (string * Z) :=
  define (OFF I) 105
    (define (MAX I) 104
       (define (HIGH I) 103
          (define (MEDIUM I) 102
             (define (LOW I) 101 [])))).

(** A value of the options object: the fan speed table, or anything else
    the caller put there. *)
Inductive OptionValue (V : Type) : Type :=
| Table (speeds : list (string * Z))
| Given (v : V).

Arguments Table {V} speeds.
Arguments Given {V} v.

(** Line 17: the argument of [super]. *)
Definition super_options {V : Type} (I : INTENSITY)
  (options : list (string * OptionValue V)) : list (string * OptionValue V) :=
  Object_assign [] [options; [("fanSpeeds", Table (FAN_SPEEDS I))]].

End RoborockS5.

(** ** Further sample data *)

Module Scenario.

(** A timer set for 24:13, an hour no UTC date has. *)
Definition hour_24 : ValetudoTimer :=
  {| id := "hour_24"; enabled := JS.boolean true; dow := [2; 4]; hour := 24; minute := 13;
     action := Some Sample.full_cleanup; pre_actions := Some [] |}.

Definition water_without_params : PreActionDefinition :=
  {| pre_action_type := JS.str "water_usage_control"; pre_action_params := None |}.

(** Its second pre-action has a known type and no [params]. *)
Definition no_params : ValetudoTimer :=
  Sample.timer "no_params" (JS.boolean true) (Some Sample.full_cleanup)
    (Some [Sample.pre "fan_speed_control" "low"; water_without_params;
           Sample.pre "siren" "on"]).

Definition synced_tick (nowTime : Z) : TickInput :=
  {| tick_now := nowTime;
     tick_ntp := ValetudoNTPClientSyncedState;
     tick_config := Sample.configuration (JS.boolean true) Sample.everyone |}.

Definition unsynced_tick (nowTime : Z) : TickInput :=
  {| tick_now := nowTime;
     tick_ntp := ValetudoNTPClientOtherState;
     tick_config := Sample.configuration (JS.boolean true) Sample.everyone |}.

Definition intensity : RoborockS5.INTENSITY :=
  {| RoborockS5.LOW := "low";
     RoborockS5.MEDIUM := "medium";
     RoborockS5.HIGH := "high";
     RoborockS5.MAX := "max";
     RoborockS5.OFF := "off" |}.

(** Options of a caller who brings a fan speed entry of their own. *)
Definition options : list (string * RoborockS5.OptionValue nat) :=
  [("config", RoborockS5.Given 1%nat);
   ("fanSpeeds", RoborockS5.Given 2%nat);
   ("valetudoEventStore", RoborockS5.Given 3%nat)].

End Scenario.

(** ** The scheduler *)

Section Scheduler.

Variable TYPES : TimerTypes.

(** *** [executeTimer] *)

(** Lines 94-106: the [switch] over [timerDefinition.action?.type];
    [None] is [action] left [undefined]. *)
Definition new_action (timerDefinition : ValetudoTimer) : option TimerAction :=
  let type :=
    match action timerDefinition with
    | None => JS.undefined
    | Some a => action_type a
    end in
  let param (field : ActionParams -> JS.value) :=
    match action timerDefinition with
    | Some {| action_params := Some ps |} => field ps
    | _ => JS.undefined
    end in
  if JS.strict_equals type (JS.str (FULL_CLEANUP TYPES)) then
    Some ValetudoFullCleanupTimerAction
  else if JS.strict_equals type (JS.str (SEGMENT_CLEANUP TYPES)) then
    Some (ValetudoSegmentCleanupTimerAction
            (param segment_ids) (param iterations) (param custom_order))
  else None.

(** The property read [timerDefinition.action.type] of line 111, without
    optional chaining; the text is that of an undefined [action]. *)
Definition action_dot_type (timerDefinition : ValetudoTimer) : Async JS.value :=
  match action timerDefinition with
  | None => Throw (JS.TypeError "Cannot read properties of undefined (reading 'type')")
  | Some a => Ret (action_type a)
  end.

(** The property read [timerPreActionDefinition.params.value]; the text is
    that of an undefined [params]. *)
Definition params_dot_value (d : PreActionDefinition) : Async JS.value :=
  match pre_action_params d with
  | None => Throw (JS.TypeError "Cannot read properties of undefined (reading 'value')")
  | Some ps => Ret (value ps)
  end.

(** Lines 121-142: the [switch] over [timerPreActionDefinition.type]. *)
Definition new_pre_action (d : PreActionDefinition) : Async (option TimerPreAction) :=
  let type := pre_action_type d in
  if JS.strict_equals type (JS.str (FAN_SPEED_CONTROL TYPES)) then
    v <- params_dot_value d ;;
    Ret (Some (ValetudoFanSpeedControlTimerPreAction v))
  else if JS.strict_equals type (JS.str (WATER_USAGE_CONTROL TYPES)) then
    v <- params_dot_value d ;;
    Ret (Some (ValetudoWaterUsageControlTimerPreAction v))
  else if JS.strict_equals type (JS.str (OPERATION_MODE_CONTROL TYPES)) then
    v <- params_dot_value d ;;
    Ret (Some (ValetudoOperationModeControlTimerPreAction v))
  else Ret None.

(** Lines 120-154: the first loop, which only builds handler objects. *)
Fixpoint collect_pre_actions (timerDefinition : ValetudoTimer)
  (definitions : list PreActionDefinition) (preActions : list TimerPreAction)
  : Async (Flow (list TimerPreAction)) :=
  match definitions with
  | [] => Ret (Continue preActions)
  | timerPreActionDefinition :: rest =>
      preAction <- new_pre_action timerPreActionDefinition ;;
      match preAction with
      | Some p => collect_pre_actions timerDefinition rest (preActions ++ [p])
      | None =>
          Logger_warn
            ("Error while executing timer " ++ id timerDefinition)%string
            ("Couldn't find timer pre_action for type: "
               ++ JS.ToString (pre_action_type timerPreActionDefinition))%string
            (Ret Return)
      end
  end.

(** Lines 158-160: the second loop. *)
Fixpoint run_pre_actions (preActions : list TimerPreAction) : Async unit :=
  match preActions with
  | [] => Ret tt
  | preAction :: rest => await_run (RunPreAction preAction) ;;; run_pre_actions rest
  end.

Definition executeTimer (timerDefinition : ValetudoTimer) : Async unit :=
  match new_action timerDefinition with
  | None =>
      type <- action_dot_type timerDefinition ;;
      Logger_warn
        ("Error while executing timer " ++ id timerDefinition)%string
        ("Couldn't find timer action for type: " ++ JS.ToString type)%string
        (Ret tt)
  | Some action =>
      flow <- match pre_actions timerDefinition with
              | Some definitions => collect_pre_actions timerDefinition definitions []
              | None => Ret (Continue [])
              end ;;
      match flow with
      | Return => Ret tt
      | Continue preActions =>
          run_pre_actions preActions ;;;
          await_run (RunAction action)
      end
  end.

(** *** [evaluateTimers] *)

(** Line 78: the call [this.executeTimer(timerDefinition)] runs the body up
    to its first [await]; the promise it returns is the new task. *)
Definition spawn (checkDate : Z) (timerDefinition : ValetudoTimer) : Task * list LogEntry :=
  let '(log, ops, st) := advance (executeTimer timerDefinition) in
  ({| task_timer := timerDefinition;
      task_checkDate := checkDate;
      task_invoked := ops;
      task_promise := st |}, log).

(** Lines 76-80: log, call the async function, attach the [catch] reaction. *)
Definition dispatch (checkDate : Z) (timerDefinition : ValetudoTimer) (w : World) : World :=
  let '(task, log) := spawn checkDate timerDefinition in
  {| logger := logger w ++ LogInfo ("Executing timer " ++ id timerDefinition)%string :: log;
     tasks := tasks w ++ [task];
     checkDates := checkDates w |}.

(** Lines 70-75: the condition under which a timer fires. *)
Definition is_due (checkTime : CheckTime.t) (timerDefinition : ValetudoTimer) : bool :=
  JS.strict_equals (enabled timerDefinition) (JS.boolean true)
  && existsb (fun d => d =? CheckTime.dow checkTime) (dow timerDefinition)
  && (hour timerDefinition =? CheckTime.hour checkTime)
  && (minute timerDefinition =? CheckTime.minute checkTime).

Definition checkTime_of (checkDate : Z) : CheckTime.t :=
  {| CheckTime.dow := UTCDate.getUTCDay checkDate;
     CheckTime.hour := UTCDate.getUTCHours checkDate;
     CheckTime.minute := UTCDate.getUTCMinutes checkDate |}.

(** Lines 62-82: one iteration of the drain loop, less the increment. *)
Definition check_minute (timers : list (string * ValetudoTimer))
  (nextScheduledCheckTime : Z) (w : World) : World :=
  let checkDate := nextScheduledCheckTime in
  let checkTime := checkTime_of checkDate in
  fold_left
    (fun w timerDefinition =>
       if is_due checkTime timerDefinition then dispatch checkDate timerDefinition w
       else w)
    (Object_values timers)
    {| logger := logger w; tasks := tasks w; checkDates := checkDates w ++ [checkDate] |}.

(** Lines 61-85: the drain loop. *)
Equations? drain (timers : list (string * ValetudoTimer)) (nowTime : Z)
  (nextScheduledCheckTime : Z) (w : World) : Z * World
  by wf (Z.to_nat (nowTime - nextScheduledCheckTime)) lt :=
  drain timers nowTime next w with Z_lt_dec next nowTime => {
    | left _ := drain timers nowTime (next + MS_PER_MIN) (check_minute timers next w);
    | right _ := (next, w) }.
Proof. unfold MS_PER_MIN. lia. Qed.

(** Lines 52-54: the watermark the drain loop starts from. *)
Definition revalidate (nextScheduledCheckTime : option Z) (nowTime : Z) : Z :=
  match nextScheduledCheckTime with
  | None => nowTime - MS_PER_MIN
  | Some t =>
      if (t >? nowTime) || (t <? nowTime - 60 * MS_PER_MIN)
      then nowTime - MS_PER_MIN
      else t
  end.

(** Lines 34-39: the condition of the early [return]. *)
Definition gate_closed (this : Scheduler) : bool :=
  negb (match ntpClient this with
        | ValetudoNTPClientSyncedState => true
        | _ => false
        end
        || match ntpClient this with
           | ValetudoNTPClientDisabledState => true
           | _ => false
           end)
  && JS.strict_equals (embedded (config this)) (JS.boolean true).

(** [nowTime] is the reading [new Date().getTime()]. *)
Definition evaluateTimers (this : Scheduler) (nowTime : Z) (w : World) : Scheduler * World :=
  if gate_closed this then (this, w)
  else
    let timers := timers (config this) in
    let next := revalidate (nextScheduledCheckTime this) nowTime in
    let '(next', w') := drain timers nowTime next w in
    ({| config := config this;
        ntpClient := ntpClient this;
        nextScheduledCheckTime := Some next' |}, w').

(** The interval callback of lines 28-30 as one macrotask. *)
Definition tick (this : Scheduler) (nowTime : Z) (w : World) : Scheduler * World :=
  let '(this', w') := evaluateTimers this nowTime w in (this', microtasks w').

(** A dispatched pipeline as it stands when the tick has ended. *)
Definition start (checkDate : Z) (timerDefinition : ValetudoTimer) : Task :=
  fst (run_reaction (fst (spawn checkDate timerDefinition))).

(** Line 24, with the collaborators handed to the constructor. *)
Definition constructor (config : Configuration) (ntpClient : NTPClientState) : Scheduler :=
  {| config := config; ntpClient := ntpClient; nextScheduledCheckTime := None |}.

Definition run_tick (input : TickInput) (sw : Scheduler * World) : Scheduler * World :=
  tick {| config := tick_config input;
          ntpClient := tick_ntp input;
          nextScheduledCheckTime := nextScheduledCheckTime (fst sw) |}
       (tick_now input) (snd sw).

Definition run_ticks (inputs : list TickInput) (sw : Scheduler * World) : Scheduler * World :=
  fold_left (fun sw input => run_tick input sw) inputs sw.

(** An instant that starts a minute. *)
Definition minute_boundary (t : Z) : Prop := t mod MS_PER_MIN = 0.

(** The timers that fire at an instant, in store order. *)
Definition due_timers (timers : list (string * ValetudoTimer)) (checkDate : Z)
  : list ValetudoTimer :=
  filter (is_due (checkTime_of checkDate)) (Object_values timers).

Definition dispatch_log (checkDate : Z) (timerDefinition : ValetudoTimer) : list LogEntry :=
  LogInfo ("Executing timer " ++ id timerDefinition)%string
    :: snd (spawn checkDate timerDefinition).

(** The pipelines dispatched at an instant, as [spawn] leaves them. *)
Definition dispatched_at (timers : list (string * ValetudoTimer)) (t : Z) : list Task :=
  map (fun td => fst (spawn t td)) (due_timers timers t).

(** The pre-action list of a timer, empty when the property is no array. *)
Definition pre_action_definitions (timerDefinition : ValetudoTimer)
  : list PreActionDefinition :=
  match pre_actions timerDefinition with
  | Some definitions => definitions
  | None => []
  end.

(** Tags that name a handler. *)
Definition recognized_action (timerDefinition : ValetudoTimer) : Prop :=
  exists a, action timerDefinition = Some a
            /\ (action_type a = JS.str (FULL_CLEANUP TYPES)
                \/ action_type a = JS.str (SEGMENT_CLEANUP TYPES)).

Definition recognized_pre_action (d : PreActionDefinition) : Prop :=
  pre_action_type d = JS.str (FAN_SPEED_CONTROL TYPES)
  \/ pre_action_type d = JS.str (WATER_USAGE_CONTROL TYPES)
  \/ pre_action_type d = JS.str (OPERATION_MODE_CONTROL TYPES).

(** The timer with its [pre_actions] property replaced. *)
Definition with_pre_actions (timerDefinition : ValetudoTimer)
  (definitions : option (list PreActionDefinition)) : ValetudoTimer :=
  {| id := id timerDefinition;
     enabled := enabled timerDefinition;
     dow := dow timerDefinition;
     hour := hour timerDefinition;
     minute := minute timerDefinition;
     action := action timerDefinition;
     pre_actions := definitions |}.

(** The two loops of lines 157-163 as one body. *)
Definition execution_pass (preActions : list TimerPreAction) (action : TimerAction)
  : Async unit :=
  run_pre_actions preActions ;;; await_run (RunAction action).

(** A continuation that, resumed by a fulfilment, invokes the operations of
    [rest] one by one and then fulfils, and resumed by a rejection at any
    stage rejects with the same reason, logging and invoking nothing. *)
Fixpoint awaits (k : Settlement -> Async unit) (rest : list DeviceOp) : Prop :=
  (forall e, advance (k (Rejected e)) = ([], [], Settled (Rejected e)))
  /\ match rest with
     | [] => advance (k Fulfilled) = ([], [], Settled Fulfilled)
     | op :: rest' =>
         exists k', advance (k Fulfilled) = ([], [op], Suspended k') /\ awaits k' rest'
     end.

(** ** Vocabulary of the further statements *)

(** The gate of lines 34-39 as the collaborators of one tick decide it. *)
Definition input_gate_closed (input : TickInput) : bool :=
  gate_closed {| config := tick_config input;
                 ntpClient := tick_ntp input;
                 nextScheduledCheckTime := None |}.

(** Clock readings that follow [previous] and one another by at least one
    and at most sixty minutes. *)
Fixpoint paced (previous : Z) (inputs : list TickInput) : Prop :=
  match inputs with
  | [] => True
  | input :: rest =>
      previous + MS_PER_MIN <= tick_now input <= previous + 60 * MS_PER_MIN
      /\ paced (tick_now input) rest
  end.

(** The clock reading of the last tick, [previous] when there is none. *)
Definition last_reading (previous : Z) (inputs : list TickInput) : Z :=
  List.last (map tick_now inputs) previous.

(** A macrotask of the event loop: the interval of lines 28-30 fires, or the
    device operation awaited by pipeline number [tid] settles. *)
Inductive Macrotask : Type :=
| IntervalFires (input : TickInput)
| OperationSettles (tid : nat) (s : Settlement).

Definition run_macrotask (m : Macrotask) (sw : Scheduler * World) : Scheduler * World :=
  match m with
  | IntervalFires input => run_tick input sw
  | OperationSettles tid s => (fst sw, settle tid s (snd sw))
  end.

Definition run_macrotasks (ms : list Macrotask) (sw : Scheduler * World)
  : Scheduler * World :=
  fold_left (fun sw m => run_macrotask m sw) ms sw.

(** The settlements addressed to one pipeline, in order. *)
Definition settlements_of (tid : nat) (ms : list Macrotask) : list Settlement :=
  flat_map (fun m => match m with
                     | OperationSettles t s => if Nat.eqb t tid then [s] else []
                     | IntervalFires _ => []
                     end) ms.

(** The line of lines 78-80 for a pipeline and a reason. *)
Definition error_line (task : Task) (e : JS.Error) : LogEntry :=
  LogError ("Error while executing timer " ++ id (task_timer task))%string e.

Definition rejections_reported (w : World) : Prop :=
  forall task e,
    In task (tasks w) -> task_promise task = Done (Rejected e) ->
    In (error_line task e) (logger w).

(** The world before anything was logged, dispatched or checked. *)
Definition nothing_yet : World := {| logger := []; tasks := []; checkDates := [] |}.

(** A world in which one pipeline of the sample timer [plain] is suspended
    at its cleanup. *)
Definition one_running : World :=
  {| logger := [];
     tasks := [start Sample.now Sample.plain];
     checkDates := [] |}.

(** ** Arithmetic of the minute progression *)

Lemma elapsed_minutes_zero (w nowTime : Z) :
  nowTime <= w -> elapsed_minutes w nowTime = O.
Proof.
  intros H. unfold elapsed_minutes, MS_PER_MIN.
  assert ((nowTime - w + (60 * 1000 - 1)) / (60 * 1000) <= 0).
  { apply Z.lt_succ_r. apply Z.div_lt_upper_bound; lia. }
  lia.
Qed.

Lemma elapsed_minutes_succ (w nowTime : Z) :
  w < nowTime -> elapsed_minutes w nowTime = S (elapsed_minutes (w + MS_PER_MIN) nowTime).
Proof.
  intros H. unfold elapsed_minutes, MS_PER_MIN.
  replace (nowTime - w + (60 * 1000 - 1))
    with ((nowTime - (w + 60 * 1000) + (60 * 1000 - 1)) + 1 * (60 * 1000)) by lia.
  rewrite Z.div_add by lia.
  assert (0 <= (nowTime - (w + 60 * 1000) + (60 * 1000 - 1)) / (60 * 1000)).
  { apply Z.div_pos; lia. }
  lia.
Qed.

Lemma elapsed_minutes_between (w nowTime k : Z) :
  0 <= k -> MS_PER_MIN * k < nowTime - w <= MS_PER_MIN * (k + 1) ->
  elapsed_minutes w nowTime = Z.to_nat (k + 1).
Proof.
  intros Hk [Hlo Hhi]. unfold elapsed_minutes. f_equal.
  unfold MS_PER_MIN in *.
  symmetry. apply Z.div_unique with (r := nowTime - w + (60 * 1000 - 1) - 60 * 1000 * (k + 1)); lia.
Qed.

Lemma minute_instants_succ (w : Z) (n : nat) :
  minute_instants w (S n) = w :: minute_instants (w + MS_PER_MIN) n.
Proof.
  unfold minute_instants. cbn [seq]. rewrite <- seq_shift. cbn [map].
  rewrite map_map. f_equal; [lia |]. apply map_ext. intros i. lia.
Qed.

Lemma minute_instants_In (w : Z) (n : nat) (t : Z) :
  In t (minute_instants w n) <-> exists i, (i < n)%nat /\ t = w + MS_PER_MIN * Z.of_nat i.
Proof.
  unfold minute_instants. rewrite in_map_iff. split.
  - intros [i [E Hi]]. apply in_seq in Hi. exists i. split; [lia | congruence].
  - intros [i [Hi E]]. exists i. split; [congruence | apply in_seq; lia].
Qed.

Lemma minute_instants_sorted (w : Z) (n : nat) :
  StronglySorted Z.lt (minute_instants w n).
Proof.
  revert w. induction n as [| n IH]; intros w.
  - constructor.
  - rewrite minute_instants_succ. constructor; [apply IH |].
    apply Forall_forall. intros t Ht. apply minute_instants_In in Ht.
    destruct Ht as [i [_ ->]]. unfold MS_PER_MIN. lia.
Qed.

(** Below [nowTime] lie exactly the first [elapsed_minutes] instants. *)
Lemma elapsed_minutes_lt (w nowTime : Z) (i : nat) :
  (i < elapsed_minutes w nowTime)%nat <-> w + MS_PER_MIN * Z.of_nat i < nowTime.
Proof.
  revert w. induction i as [| i IH]; intros w.
  - destruct (Z_lt_dec w nowTime) as [H | H].
    + rewrite elapsed_minutes_succ by assumption. unfold MS_PER_MIN. lia.
    + rewrite elapsed_minutes_zero by lia. unfold MS_PER_MIN. lia.
  - destruct (Z_lt_dec w nowTime) as [H | H].
    + rewrite elapsed_minutes_succ by assumption.
      specialize (IH (w + MS_PER_MIN)). unfold MS_PER_MIN in *. lia.
    + rewrite elapsed_minutes_zero by lia. unfold MS_PER_MIN. lia.
Qed.

(** ** The drain loop in closed form *)

Lemma dispatch_fold (checkDate : Z) (l : list ValetudoTimer) (w : World) :
  fold_left
    (fun w timerDefinition =>
       if is_due (checkTime_of checkDate) timerDefinition
       then dispatch checkDate timerDefinition w else w) l w
  = {| logger := logger w
         ++ flat_map (dispatch_log checkDate) (filter (is_due (checkTime_of checkDate)) l);
       tasks := tasks w
         ++ map (fun td => fst (spawn checkDate td)) (filter (is_due (checkTime_of checkDate)) l);
       checkDates := checkDates w |}.
Proof.
  revert w. induction l as [| td l IH]; intros w; simpl.
  - destruct w; simpl. now rewrite !app_nil_r.
  - destruct (is_due (checkTime_of checkDate) td); [| apply IH].
    rewrite IH. unfold dispatch, dispatch_log.
    cbn [flat_map map].
    destruct (spawn checkDate td) as [task log].
    cbn [logger tasks checkDates fst snd].
    now rewrite <- !app_assoc.
Qed.

Lemma check_minute_spec (timers : list (string * ValetudoTimer)) (t : Z) (w : World) :
  check_minute timers t w
  = {| logger := logger w ++ flat_map (dispatch_log t) (due_timers timers t);
       tasks := tasks w ++ map (fun td => fst (spawn t td)) (due_timers timers t);
       checkDates := checkDates w ++ [t] |}.
Proof. unfold check_minute. now rewrite dispatch_fold. Qed.

Lemma drain_spec (timers : list (string * ValetudoTimer)) (nowTime next : Z) (w : World) :
  drain timers nowTime next w
  = (next + MS_PER_MIN * Z.of_nat (elapsed_minutes next nowTime),
     fold_left (fun w t => check_minute timers t w)
       (minute_instants next (elapsed_minutes next nowTime)) w).
Proof.
  funelim (drain timers nowTime next w).
  - rewrite H. rewrite (elapsed_minutes_succ next nowTime) by assumption.
    rewrite minute_instants_succ. simpl fold_left. f_equal. lia.
  - rewrite elapsed_minutes_zero by lia. simpl. f_equal. lia.
Qed.

Lemma drain_world (timers : list (string * ValetudoTimer)) (ts : list Z) (w : World) :
  fold_left (fun w t => check_minute timers t w) ts w
  = {| logger := logger w
         ++ flat_map (fun t => flat_map (dispatch_log t) (due_timers timers t)) ts;
       tasks := tasks w ++ flat_map (dispatched_at timers) ts;
       checkDates := checkDates w ++ ts |}.
Proof.
  revert w. induction ts as [| t ts IH]; intros w; cbn [fold_left flat_map].
  - destruct w; cbn [logger tasks checkDates]. now rewrite !app_nil_r.
  - rewrite IH, check_minute_spec. cbn [logger tasks checkDates].
    unfold dispatched_at at 2. now rewrite <- !app_assoc.
Qed.

Lemma evaluateTimers_open (this : Scheduler) (nowTime : Z) (w : World) :
  gate_closed this = false ->
  let next := revalidate (nextScheduledCheckTime this) nowTime in
  let n := elapsed_minutes next nowTime in
  evaluateTimers this nowTime w
  = ({| config := config this;
        ntpClient := ntpClient this;
        nextScheduledCheckTime := Some (next + MS_PER_MIN * Z.of_nat n) |},
     fold_left (fun w t => check_minute (timers (config this)) t w)
       (minute_instants next n) w).
Proof.
  intros Hgate next n. unfold evaluateTimers. rewrite Hgate.
  now rewrite drain_spec.
Qed.

Lemma evaluateTimers_closed (this : Scheduler) (nowTime : Z) (w : World) :
  gate_closed this = true -> evaluateTimers this nowTime w = (this, w).
Proof. intros Hgate. unfold evaluateTimers. now rewrite Hgate. Qed.

Lemma revalidate_valid (wm nowTime : Z) :
  wm <= nowTime -> nowTime - wm <= 60 * MS_PER_MIN ->
  revalidate (Some wm) nowTime = wm.
Proof.
  intros H1 H2. unfold revalidate.
  destruct (wm >? nowTime) eqn:E1; [lia |].
  destruct (wm <? nowTime - 60 * MS_PER_MIN) eqn:E2; [lia | reflexivity].
Qed.

Lemma revalidate_bounds (next : option Z) (nowTime : Z) :
  revalidate next nowTime <= nowTime
  /\ nowTime - revalidate next nowTime <= 60 * MS_PER_MIN.
Proof.
  unfold revalidate, MS_PER_MIN. destruct next as [t |]; [| lia].
  destruct (t >? nowTime) eqn:E1; cbn [orb]; [lia |].
  destruct (t <? nowTime - 60 * (60 * 1000)) eqn:E2; lia.
Qed.

Lemma strict_equals_true (v : JS.value) :
  JS.strict_equals v (JS.boolean true) = true <-> v = JS.boolean true.
Proof.
  destruct v as [| | [|] | | |]; cbn; split; intros H; try reflexivity; discriminate H.
Qed.

Lemma strict_equals_str (v : JS.value) (s : string) :
  JS.strict_equals v (JS.str s) = true <-> v = JS.str s.
Proof.
  destruct v; cbn; split; intros H; try discriminate H.
  - apply String.eqb_eq in H. now subst.
  - injection H as ->. apply String.eqb_refl.
Qed.

(** ** The tick handler *)


(** A tick that passes the gate leaves the watermark at or after its clock
    reading, less than a minute after it. *)
Lemma tick_leaves_watermark_within_a_minute (this : Scheduler) (t0 : Z) (w : World) :
  gate_closed this = false ->
  exists wm, nextScheduledCheckTime (fst (evaluateTimers this t0 w)) = Some wm
             /\ t0 <= wm < t0 + MS_PER_MIN.
Proof.
  intros Hgate. rewrite (evaluateTimers_open this t0 w Hgate). cbn [fst nextScheduledCheckTime].
  eexists. split; [reflexivity |].
  set (next := revalidate (nextScheduledCheckTime this) t0).
  pose proof (elapsed_minutes_lt next t0 (elapsed_minutes next t0)) as Hn.
  destruct (elapsed_minutes next t0) as [| m] eqn:E.
  - pose proof (revalidate_bounds (nextScheduledCheckTime this) t0) as [Hb _].
    fold next in Hb.
    destruct (Z_lt_dec next t0) as [Hlt | Hge].
    + rewrite elapsed_minutes_succ in E by assumption. discriminate E.
    + unfold MS_PER_MIN. lia.
  - pose proof (elapsed_minutes_lt next t0 m) as Hm. rewrite E in Hm.
    unfold MS_PER_MIN in *. lia.
Qed.

(** C2. On a tick that passes the gate, the drain loop starts from
    [nowTime - 60000] when the watermark is unset, or after [nowTime], or
    more than 60 minutes before it, and from the watermark itself
    otherwise. In the first case the loop checks the one instant
    [nowTime - 60000] and leaves the watermark at [nowTime]. *)
Theorem watermark_rederivation (this : Scheduler) (nowTime : Z) (w : World) :
  gate_closed this = false ->
  evaluateTimers this nowTime w
  = (let '(next, w') :=
       drain (timers (config this)) nowTime
         (revalidate (nextScheduledCheckTime this) nowTime) w in
     ({| config := config this;
         ntpClient := ntpClient this;
         nextScheduledCheckTime := Some next |}, w'))
  /\ (nextScheduledCheckTime this = None
      \/ (exists wm, nextScheduledCheckTime this = Some wm
                     /\ (wm > nowTime \/ nowTime - wm > 3600000)) ->
      revalidate (nextScheduledCheckTime this) nowTime = nowTime - 60000
      /\ checkDates (snd (evaluateTimers this nowTime w)) = checkDates w ++ [nowTime - 60000]
      /\ nextScheduledCheckTime (fst (evaluateTimers this nowTime w)) = Some nowTime)
  /\ (forall wm, nextScheduledCheckTime this = Some wm ->
      wm <= nowTime -> nowTime - wm <= 3600000 ->
      revalidate (nextScheduledCheckTime this) nowTime = wm).
Proof.
  intros Hgate. split; [| split].
  - unfold evaluateTimers. now rewrite Hgate.
  - intros Hinvalid.
    assert (Hre : revalidate (nextScheduledCheckTime this) nowTime = nowTime - 60000).
    { destruct Hinvalid as [-> | [wm [-> Hwm]]]; unfold revalidate, MS_PER_MIN.
      - reflexivity.
      - destruct (wm >? nowTime) eqn:E1; [reflexivity |].
        destruct (wm <? nowTime - 60 * (60 * 1000)) eqn:E2; [reflexivity | exfalso; lia]. }
    split; [exact Hre |].
    rewrite (evaluateTimers_open this nowTime w Hgate). cbn [fst snd].
    rewrite Hre, drain_world. cbn [checkDates nextScheduledCheckTime].
    rewrite (elapsed_minutes_between (nowTime - 60000) nowTime 0)
      by (unfold MS_PER_MIN; lia).
    change (Z.to_nat (0 + 1)) with 1%nat.
    unfold minute_instants, MS_PER_MIN. cbn [seq map].
    split; [do 2 f_equal | f_equal]; lia.
  - intros wm -> Hle Hfresh. apply revalidate_valid; unfold MS_PER_MIN; lia.
Qed.

(** C3. When the NTP client is neither synced nor disabled and the
    [embedded] setting is exactly [true], [evaluateTimers] returns at once:
    scheduler and world, hence watermark, log and pipelines, are as before.
    When [embedded] is anything but [true], the gate is open whatever the
    NTP state and the evaluation runs. *)
Theorem sync_gate (this : Scheduler) (nowTime : Z) (w : World) :
  (ntpClient this <> ValetudoNTPClientSyncedState ->
   ntpClient this <> ValetudoNTPClientDisabledState ->
   embedded (config this) = JS.boolean true ->
   evaluateTimers this nowTime w = (this, w))
  /\ (embedded (config this) <> JS.boolean true ->
      gate_closed this = false
      /\ checkDates (snd (evaluateTimers this nowTime w))
         = checkDates w
             ++ minute_instants (revalidate (nextScheduledCheckTime this) nowTime)
                  (elapsed_minutes (revalidate (nextScheduledCheckTime this) nowTime) nowTime)
      /\ exists next, nextScheduledCheckTime (fst (evaluateTimers this nowTime w)) = Some next
                      /\ nowTime <= next).
Proof.
  split.
  - intros Hsynced Hdisabled Hemb. apply evaluateTimers_closed.
    unfold gate_closed. rewrite Hemb.
    destruct (ntpClient this); [contradiction | contradiction | reflexivity].
  - intros Hemb.
    assert (Hgate : gate_closed this = false).
    { unfold gate_closed.
      destruct (JS.strict_equals (embedded (config this)) (JS.boolean true)) eqn:E.
      - apply strict_equals_true in E. contradiction.
      - apply andb_false_r. }
    split; [exact Hgate |].
    destruct (tick_leaves_watermark_within_a_minute this nowTime w Hgate) as [wm [Hwm Hb]].
    rewrite (evaluateTimers_open this nowTime w Hgate) in *. cbn [fst snd] in *.
    rewrite drain_world. cbn [checkDates].
    split; [reflexivity |]. exists wm. split; [exact Hwm | lia].
Qed.

Lemma is_due_iff (t : Z) (td : ValetudoTimer) :
  is_due (checkTime_of t) td = true
  <-> enabled td = JS.boolean true
      /\ In (UTCDate.getUTCDay t) (dow td)
      /\ hour td = UTCDate.getUTCHours t
      /\ minute td = UTCDate.getUTCMinutes t.
Proof.
  unfold is_due, checkTime_of. cbn [CheckTime.dow CheckTime.hour CheckTime.minute].
  rewrite !andb_true_iff, strict_equals_true, existsb_exists, !Z.eqb_eq.
  split.
  - intros [[[He [d [Hd Hd']]] Hh] Hm]. apply Z.eqb_eq in Hd'. subst d. tauto.
  - intros [He [Hd [Hh Hm]]]. repeat split; try assumption.
    exists (UTCDate.getUTCDay t). split; [assumption | apply Z.eqb_refl].
Qed.

Lemma spawn_fields (t : Z) (td : ValetudoTimer) :
  task_timer (fst (spawn t td)) = td /\ task_checkDate (fst (spawn t td)) = t.
Proof.
  unfold spawn. destruct (advance (executeTimer td)) as [[log ops] st]. now split.
Qed.

Lemma dispatched_In (timers : list (string * ValetudoTimer)) (ts : list Z) (task : Task) :
  In task (flat_map (dispatched_at timers) ts)
  <-> exists t td, In t ts /\ In td (due_timers timers t) /\ task = fst (spawn t td).
Proof.
  rewrite in_flat_map. unfold dispatched_at. split.
  - intros [t [Ht Htask]]. apply in_map_iff in Htask. destruct Htask as [td [E Htd]].
    exists t, td. now repeat split.
  - intros [t [td [Ht [Htd ->]]]]. exists t. split; [assumption |].
    apply in_map_iff. now exists td.
Qed.

(** C5. The pipelines a tick dispatches are those of [dispatched_at] over the
    instants it checks: at a checked instant [t], a timer of the store gets
    a pipeline for [t] if and only if its [enabled] is [true], its [dow]
    holds the UTC weekday of [t], and its [hour] and [minute] equal the UTC
    hour and minute of [t]. A timer whose [enabled] is not [true] gets
    none. *)
Theorem dispatch_iff_due (this : Scheduler) (nowTime : Z) (w : World) :
  exists ts,
    checkDates (snd (evaluateTimers this nowTime w)) = checkDates w ++ ts
    /\ tasks (snd (evaluateTimers this nowTime w))
       = tasks w ++ flat_map (dispatched_at (timers (config this))) ts
    /\ forall t td,
         In t ts -> In td (Object_values (timers (config this))) ->
         ((exists task, In task (flat_map (dispatched_at (timers (config this))) ts)
                        /\ task_timer task = td /\ task_checkDate task = t)
          <-> enabled td = JS.boolean true
              /\ In (UTCDate.getUTCDay t) (dow td)
              /\ hour td = UTCDate.getUTCHours t
              /\ minute td = UTCDate.getUTCMinutes t).
Proof.
  assert (Hiff : forall ts t td,
             In t ts -> In td (Object_values (timers (config this))) ->
             ((exists task, In task (flat_map (dispatched_at (timers (config this))) ts)
                            /\ task_timer task = td /\ task_checkDate task = t)
              <-> enabled td = JS.boolean true
                  /\ In (UTCDate.getUTCDay t) (dow td)
                  /\ hour td = UTCDate.getUTCHours t
                  /\ minute td = UTCDate.getUTCMinutes t)).
  { intros ts t td Ht Htd. rewrite <- is_due_iff. split.
    - intros [task [Htask [Htimer Hdate]]].
      apply dispatched_In in Htask. destruct Htask as [t' [td' [_ [Hdue ->]]]].
      destruct (spawn_fields t' td') as [E1 E2]. rewrite E1 in Htimer. rewrite E2 in Hdate.
      subst. unfold due_timers in Hdue. now apply filter_In in Hdue.
    - intros Hdue. exists (fst (spawn t td)).
      split; [| apply spawn_fields].
      apply dispatched_In. exists t, td. repeat split; try assumption.
      unfold due_timers. now apply filter_In. }
  destruct (gate_closed this) eqn:Hgate.
  - exists []. rewrite (evaluateTimers_closed this nowTime w Hgate). cbn [snd flat_map].
    rewrite !app_nil_r. split; [reflexivity |]. split; [reflexivity |].
    intros t td [].
  - eexists. rewrite (evaluateTimers_open this nowTime w Hgate). cbn [snd].
    rewrite drain_world. cbn [checkDates tasks].
    split; [reflexivity |]. split; [reflexivity |]. apply Hiff.
Qed.

(** ** The phase of the watermark *)

Lemma phase_advance (a n : Z) : (a + MS_PER_MIN * n) mod MS_PER_MIN = a mod MS_PER_MIN.
Proof. rewrite (Z.mul_comm MS_PER_MIN n). apply Z.mod_add. unfold MS_PER_MIN. lia. Qed.

Lemma evaluateTimers_phase (this : Scheduler) (nowTime : Z) (w : World) (v : Z) :
  nextScheduledCheckTime (fst (evaluateTimers this nowTime w)) = Some v ->
  v mod MS_PER_MIN = nowTime mod MS_PER_MIN
  \/ exists v0, nextScheduledCheckTime this = Some v0 /\ v mod MS_PER_MIN = v0 mod MS_PER_MIN.
Proof.
  destruct (gate_closed this) eqn:Hgate.
  - rewrite (evaluateTimers_closed this nowTime w Hgate). cbn [fst].
    intros Hv. right. now exists v.
  - rewrite (evaluateTimers_open this nowTime w Hgate). cbn [fst nextScheduledCheckTime].
    intros Hv.
    match type of Hv with Some ?a = _ => assert (E : a = v) by congruence end.
    rewrite <- E, phase_advance. unfold revalidate.
    assert (Hreset : (nowTime - MS_PER_MIN) mod MS_PER_MIN = nowTime mod MS_PER_MIN).
    { replace (nowTime - MS_PER_MIN) with (nowTime + (-1) * MS_PER_MIN) by lia.
      apply Z.mod_add. unfold MS_PER_MIN. lia. }
    destruct (nextScheduledCheckTime this) as [v0 |]; [| now left].
    destruct ((v0 >? nowTime) || (v0 <? nowTime - 60 * MS_PER_MIN)); [now left |].
    right. now exists v0.
Qed.

Lemma run_ticks_phase (inputs : list TickInput) (sw : Scheduler * World) (phases : list Z) :
  (forall v, nextScheduledCheckTime (fst sw) = Some v -> In (v mod MS_PER_MIN) phases) ->
  forall v, nextScheduledCheckTime (fst (run_ticks inputs sw)) = Some v ->
            In (v mod MS_PER_MIN)
               (phases ++ map (fun input => tick_now input mod MS_PER_MIN) inputs).
Proof.
  revert sw phases. induction inputs as [| input inputs IH]; intros sw phases Hsw v Hv.
  - cbn in Hv. rewrite app_nil_r. now apply Hsw.
  - cbn [run_ticks fold_left] in Hv. fold (run_ticks inputs (run_tick input sw)) in Hv.
    specialize (IH (run_tick input sw) (phases ++ [tick_now input mod MS_PER_MIN])).
    cbn [map].
    replace (phases ++ tick_now input mod MS_PER_MIN
               :: map (fun input0 => tick_now input0 mod MS_PER_MIN) inputs)
      with ((phases ++ [tick_now input mod MS_PER_MIN])
              ++ map (fun input0 => tick_now input0 mod MS_PER_MIN) inputs)
      by (now rewrite <- app_assoc).
    apply IH; [| exact Hv].
    intros v1 Hv1. unfold run_tick, tick in Hv1.
    match type of Hv1 with
    | context [evaluateTimers ?s ?n ?w0] =>
        pose proof (evaluateTimers_phase s n w0 v1) as Hphase;
        destruct (evaluateTimers s n w0) as [s' w'] eqn:E
    end.
    cbn [fst] in Hv1, Hphase. specialize (Hphase Hv1).
    apply in_or_app. destruct Hphase as [Hnow | [v0 [Hv0 Hsame]]].
    + right. cbn [tick_now]. left. now symmetry.
    + left. rewrite Hsame. apply Hsw. exact Hv0.
Qed.

(** C9, as the code has it. The watermark keeps the phase within the minute
    of the clock reading it was last re-derived from: after any sequence of
    ticks of a fresh scheduler, a watermark that is set is congruent modulo
    60000 to the clock reading of one of those ticks (re-derivation sets it
    to [nowTime - 60000], each advancement adds 60000). It is a minute
    boundary when every clock reading was one. *)
Theorem watermark_keeps_clock_phase
  (inputs : list TickInput) (cfg : Configuration) (ntp : NTPClientState) (w : World) (v : Z) :
  nextScheduledCheckTime (fst (run_ticks inputs (constructor cfg ntp, w))) = Some v ->
  (exists input, In input inputs /\ v mod MS_PER_MIN = tick_now input mod MS_PER_MIN)
  /\ (Forall (fun input => minute_boundary (tick_now input)) inputs -> minute_boundary v).
Proof.
  intros Hv.
  assert (Hin : exists input, In input inputs
                              /\ v mod MS_PER_MIN = tick_now input mod MS_PER_MIN).
  { pose proof (run_ticks_phase inputs (constructor cfg ntp, w) []) as H.
    cbn [app fst constructor nextScheduledCheckTime] in H.
    specialize (H (fun v0 E => ltac:(discriminate E)) v Hv).
    apply in_map_iff in H. destruct H as [input [E Hinput]]. exists input. now split. }
  split; [exact Hin |].
  intros Hall. destruct Hin as [input [Hinput E]].
  unfold minute_boundary. rewrite E.
  rewrite Forall_forall in Hall. now apply Hall.
Qed.

(** ** One pipeline *)

Lemma task_settle_done (task : Task) (s s' : Settlement) :
  task_promise task = Done s -> task_settle task s' = task.
Proof.
  intros H. unfold task_settle, resume. rewrite H. cbn [fst].
  unfold run_reaction. now rewrite H.
Qed.

Lemma replay_done (task : Task) (s : Settlement) (rs : list Settlement) :
  task_promise task = Done s -> replay task rs = task.
Proof.
  intros H. induction rs as [| r rs IH]; [reflexivity |].
  unfold replay in *. cbn [fold_left]. now rewrite (task_settle_done task s r H).
Qed.

Lemma execution_pass_awaits (preActions : list TimerPreAction) (a : TimerAction) :
  exists op rest k,
    op :: rest = map RunPreAction preActions ++ [RunAction a]
    /\ advance (execution_pass preActions a) = ([], [op], Suspended k)
    /\ awaits k rest.
Proof.
  induction preActions as [| p ps IH].
  - eexists _, _, _. split; [reflexivity |]. split; [reflexivity |].
    split; [reflexivity | reflexivity].
  - destruct IH as [op [rest [k [Hplan [Hadv Hk]]]]].
    exists (RunPreAction p), (op :: rest). eexists.
    split; [cbn [map app]; now rewrite Hplan |]. split; [reflexivity |].
    split; [reflexivity |].
    exists k. split; [exact Hadv | exact Hk].
Qed.

Lemma replay_awaits (rs : list Settlement) :
  forall (task : Task) (k : Settlement -> Async unit) (rest : list DeviceOp),
    task_promise task = Suspended k ->
    awaits k rest ->
    task_invoked (replay task rs) = task_invoked task ++ firstn (fulfilled_prefix rs) rest
    /\ ((List.length rest < fulfilled_prefix rs)%nat ->
        task_promise (replay task rs) = Done Fulfilled)
    /\ (forall e, (fulfilled_prefix rs <= List.length rest)%nat ->
                  nth_error rs (fulfilled_prefix rs) = Some (Rejected e) ->
                  task_promise (replay task rs) = Done (Rejected e)).
Proof.
  induction rs as [| r rs IH]; intros task k rest Hsusp Hk.
  - cbn. rewrite app_nil_r. repeat split; [lia | discriminate].
  - unfold replay. cbn [fold_left]. fold (replay (task_settle task r) rs).
    destruct rest as [| op rest]; destruct Hk as [Hrej Hful]; destruct r as [| e0].
    + assert (E : task_settle task Fulfilled
                  = {| task_timer := task_timer task;
                       task_checkDate := task_checkDate task;
                       task_invoked := task_invoked task ++ [];
                       task_promise := Done Fulfilled |}).
      { unfold task_settle, resume. rewrite Hsusp, Hful. reflexivity. }
      rewrite E, (replay_done _ Fulfilled) by reflexivity.
      cbn [task_invoked task_promise fulfilled_prefix List.length]. rewrite firstn_nil.
      repeat split; lia.
    + assert (E : task_settle task (Rejected e0)
                  = {| task_timer := task_timer task;
                       task_checkDate := task_checkDate task;
                       task_invoked := task_invoked task ++ [];
                       task_promise := Done (Rejected e0) |}).
      { unfold task_settle, resume. rewrite Hsusp, Hrej. reflexivity. }
      rewrite E, (replay_done _ (Rejected e0)) by reflexivity.
      cbn [task_invoked task_promise fulfilled_prefix List.length firstn nth_error].
      repeat split; [lia | congruence].
    + destruct Hful as [k' [Hadv Hk']].
      assert (E : task_settle task Fulfilled
                  = {| task_timer := task_timer task;
                       task_checkDate := task_checkDate task;
                       task_invoked := task_invoked task ++ [op];
                       task_promise := Suspended k' |}).
      { unfold task_settle, resume. rewrite Hsusp, Hadv. reflexivity. }
      rewrite E.
      match goal with
      | |- context [replay ?t rs] =>
          destruct (IH t k' rest eq_refl Hk') as [Hinv [Hdone Hfail]]
      end.
      cbn [task_invoked] in Hinv.
      cbn [fulfilled_prefix List.length firstn nth_error].
      rewrite Hinv, <- app_assoc. split; [reflexivity |]. split.
      * intros Hlt. apply Hdone. lia.
      * intros e Hle Hnth. apply Hfail; [lia | exact Hnth].
    + assert (E : task_settle task (Rejected e0)
                  = {| task_timer := task_timer task;
                       task_checkDate := task_checkDate task;
                       task_invoked := task_invoked task ++ [];
                       task_promise := Done (Rejected e0) |}).
      { unfold task_settle, resume. rewrite Hsusp, Hrej. reflexivity. }
      rewrite E, (replay_done _ (Rejected e0)) by reflexivity.
      cbn [task_invoked task_promise fulfilled_prefix List.length firstn nth_error].
      repeat split; [lia | congruence].
Qed.

(** What the [switch] over a pre-action tag yields. *)
Lemma new_pre_action_cases (d : PreActionDefinition) :
  (~ recognized_pre_action d /\ new_pre_action d = Ret None)
  \/ (recognized_pre_action d
      /\ ((exists e, pre_action_params d = None /\ new_pre_action d = Throw e)
          \/ (exists p, pre_action_params d <> None /\ new_pre_action d = Ret (Some p)))).
Proof.
  unfold new_pre_action, recognized_pre_action, params_dot_value.
  destruct (JS.strict_equals (pre_action_type d) (JS.str (FAN_SPEED_CONTROL TYPES))) eqn:E1;
    [apply strict_equals_str in E1 |
     destruct (JS.strict_equals (pre_action_type d) (JS.str (WATER_USAGE_CONTROL TYPES))) eqn:E2;
     [apply strict_equals_str in E2 |
      destruct (JS.strict_equals (pre_action_type d)
                  (JS.str (OPERATION_MODE_CONTROL TYPES))) eqn:E3;
      [apply strict_equals_str in E3 |]]].
  1-3: right; split; [tauto |];
       destruct (pre_action_params d) as [ps |]; cbn [bind];
       [right; eexists; split; [discriminate | reflexivity]
       | left; eexists; split; reflexivity].
  left. split; [| reflexivity].
  intros [H | [H | H]].
  - apply strict_equals_str in H. congruence.
  - apply strict_equals_str in H. congruence.
  - apply strict_equals_str in H. congruence.
Qed.

Lemma new_action_recognized (td : ValetudoTimer) :
  recognized_action td <-> exists a, new_action td = Some a.
Proof.
  unfold recognized_action, new_action. split.
  - intros [ad [-> [H | H]]]; rewrite H.
    + rewrite (proj2 (strict_equals_str _ _) eq_refl). eauto.
    + destruct (JS.strict_equals (JS.str (SEGMENT_CLEANUP TYPES))
                  (JS.str (FULL_CLEANUP TYPES))); [eauto |].
      rewrite (proj2 (strict_equals_str _ _) eq_refl). eauto.
  - intros [a H]. destruct (action td) as [ad |].
    + exists ad. split; [reflexivity |].
      destruct (JS.strict_equals (action_type ad) (JS.str (FULL_CLEANUP TYPES))) eqn:E1.
      * left. now apply strict_equals_str.
      * destruct (JS.strict_equals (action_type ad) (JS.str (SEGMENT_CLEANUP TYPES))) eqn:E2.
        -- right. now apply strict_equals_str.
        -- discriminate H.
    + cbn in H. discriminate H.
Qed.

(** The first loop on a list whose entries all resolve. *)
Lemma collect_pre_actions_valid (td : ValetudoTimer)
  (definitions : list PreActionDefinition) (ps : list TimerPreAction) :
  Forall2 (fun d p => new_pre_action d = Ret (Some p)) definitions ps ->
  forall acc, collect_pre_actions td definitions acc = Ret (Continue (acc ++ ps)).
Proof.
  induction 1 as [| d p definitions ps Hd _ IH]; intros acc; cbn [collect_pre_actions].
  - now rewrite app_nil_r.
  - rewrite Hd. cbn [bind]. rewrite IH, <- app_assoc. reflexivity.
Qed.

Lemma resolvable_pre_actions (definitions : list PreActionDefinition) :
  Forall (fun d => recognized_pre_action d /\ pre_action_params d <> None) definitions ->
  exists ps, Forall2 (fun d p => new_pre_action d = Ret (Some p)) definitions ps.
Proof.
  induction 1 as [| d definitions [Hrec Hparams] _ [ps IH]].
  - exists []. constructor.
  - destruct (new_pre_action_cases d) as [[Hno _] | [_ [[e [Hnone _]] | [p [_ Hp]]]]].
    + contradiction.
    + contradiction.
    + exists (p :: ps). now constructor.
Qed.

Lemma executeTimer_valid (td : ValetudoTimer) (a : TimerAction) (ps : list TimerPreAction) :
  new_action td = Some a ->
  Forall2 (fun d p => new_pre_action d = Ret (Some p)) (pre_action_definitions td) ps ->
  executeTimer td = execution_pass ps a.
Proof.
  intros Ha Hps. unfold executeTimer, pre_action_definitions in *. rewrite Ha.
  destruct (pre_actions td) as [definitions |].
  - now rewrite (collect_pre_actions_valid td definitions ps Hps []).
  - inversion Hps. reflexivity.
Qed.

(** The first loop on a list with an unresolvable entry: the function
    returns or throws before the second loop. *)
Lemma collect_pre_actions_invalid (td : ValetudoTimer) (a : TimerAction)
  (definitions : list PreActionDefinition) :
  Exists (fun d => ~ recognized_pre_action d) definitions ->
  forall acc, exists log s,
    advance (flow <- collect_pre_actions td definitions acc ;;
             match flow with
             | Return => Ret tt
             | Continue preActions => execution_pass preActions a
             end) = (log, [], Settled s).
Proof.
  induction definitions as [| d definitions IH]; intros Hex acc.
  - inversion Hex.
  - cbn [collect_pre_actions].
    destruct (new_pre_action_cases d) as [[Hno ->] | [Hrec [[e [_ ->]] | [p [_ ->]]]]];
      cbn [bind advance].
    + eexists _, _. reflexivity.
    + eexists _, _. reflexivity.
    + apply IH. inversion Hex; [contradiction | assumption].
Qed.

Lemma start_settled (checkDate : Z) (td : ValetudoTimer) (log : list LogEntry)
  (s : Settlement) :
  advance (executeTimer td) = (log, [], Settled s) ->
  forall rs, replay (start checkDate td) rs
             = {| task_timer := td;
                  task_checkDate := checkDate;
                  task_invoked := [];
                  task_promise := Done s |}.
Proof.
  intros Hadv rs.
  assert (E : start checkDate td
              = {| task_timer := td;
                   task_checkDate := checkDate;
                   task_invoked := [];
                   task_promise := Done s |}).
  { unfold start, spawn. rewrite Hadv. reflexivity. }
  rewrite E. now apply (replay_done _ s).
Qed.

(** C4. When the pre-action list of a timer holds an entry whose tag names
    no handler, whatever the other entries are, [executeTimer] ends within
    its synchronous part, having invoked no device operation: neither a
    pre-action nor the terminal action runs, then or later. *)
Theorem invalid_pre_action_runs_nothing
  (td : ValetudoTimer) (definitions : list PreActionDefinition) :
  pre_actions td = Some definitions ->
  Exists (fun d => ~ recognized_pre_action d) definitions ->
  (exists log s, advance (executeTimer td) = (log, [], Settled s))
  /\ forall checkDate rs, task_invoked (replay (start checkDate td) rs) = [].
Proof.
  intros Hpre Hex.
  assert (Hadv : exists log s, advance (executeTimer td) = (log, [], Settled s)).
  { unfold executeTimer. rewrite Hpre.
    destruct (new_action td) as [a |].
    - apply (collect_pre_actions_invalid td a definitions Hex []).
    - unfold action_dot_type. destruct (action td); eexists _, _; reflexivity. }
  split; [exact Hadv |].
  destruct Hadv as [log [s Hadv]]. intros checkDate rs.
  now rewrite (start_settled checkDate td log s Hadv rs).
Qed.

Lemma In_firstn {A : Type} (n : nat) (l : list A) (x : A) :
  In x (firstn n l) -> In x l.
Proof.
  revert l. induction n as [| n IH]; intros [| y l]; cbn; try tauto.
  intros [H | H]; [now left | right; now apply IH].
Qed.

Lemma start_execution_pass (checkDate : Z) (td : ValetudoTimer)
  (ps : list TimerPreAction) (a : TimerAction) (rs : list Settlement) :
  executeTimer td = execution_pass ps a ->
  let plan := map RunPreAction ps ++ [RunAction a] in
  task_invoked (replay (start checkDate td) rs) = firstn (S (fulfilled_prefix rs)) plan
  /\ ((List.length plan <= fulfilled_prefix rs)%nat ->
      task_promise (replay (start checkDate td) rs) = Done Fulfilled)
  /\ (forall e, (fulfilled_prefix rs < List.length plan)%nat ->
                nth_error rs (fulfilled_prefix rs) = Some (Rejected e) ->
                task_promise (replay (start checkDate td) rs) = Done (Rejected e)).
Proof.
  intros Hexec plan.
  destruct (execution_pass_awaits ps a) as [op [rest [k [Hplan [Hadv Hk]]]]].
  assert (E : start checkDate td
              = {| task_timer := td;
                   task_checkDate := checkDate;
                   task_invoked := [op];
                   task_promise := Suspended k |}).
  { unfold start, spawn. rewrite Hexec, Hadv. reflexivity. }
  rewrite E.
  match goal with
  | |- context [replay ?t rs] =>
      destruct (replay_awaits rs t k rest eq_refl Hk) as [Hinv [Hdone Hfail]]
  end.
  cbn [task_invoked] in Hinv. unfold plan. rewrite <- Hplan.
  cbn [firstn List.length app]. split; [exact Hinv |]. split.
  - intros Hlen. apply Hdone. lia.
  - intros e Hlen Hnth. apply Hfail; [lia | exact Hnth].
Qed.

(** C6. For a timer whose action tag and pre-action entries all resolve to
    handlers, the device operations a pipeline has invoked after any
    sequence of settlements are a prefix of [pre-action 1, ..., pre-action
    n, terminal action]: the first operation, and one more for each
    leading fulfilment. A rejection ends the pipeline with that reason and
    nothing further is invoked, neither a later stage nor an undoing of an
    earlier one; the terminal action is invoked only after every
    pre-action was fulfilled; all fulfilled, the pipeline is fulfilled. *)
Theorem pipeline_runs_prefix_in_order (td : ValetudoTimer) :
  recognized_action td ->
  Forall (fun d => recognized_pre_action d /\ pre_action_params d <> None)
    (pre_action_definitions td) ->
  exists a ps,
    new_action td = Some a
    /\ Forall2 (fun d p => new_pre_action d = Ret (Some p)) (pre_action_definitions td) ps
    /\ forall checkDate rs,
         let plan := map RunPreAction ps ++ [RunAction a] in
         let task := replay (start checkDate td) rs in
         task_invoked task = firstn (S (fulfilled_prefix rs)) plan
         /\ ((List.length plan <= fulfilled_prefix rs)%nat ->
             task_promise task = Done Fulfilled)
         /\ (forall e, (fulfilled_prefix rs < List.length plan)%nat ->
                       nth_error rs (fulfilled_prefix rs) = Some (Rejected e) ->
                       task_promise task = Done (Rejected e))
         /\ (In (RunAction a) (task_invoked task) ->
             (List.length ps <= fulfilled_prefix rs)%nat).
Proof.
  intros Hact Hpre.
  apply new_action_recognized in Hact. destruct Hact as [a Ha].
  destruct (resolvable_pre_actions _ Hpre) as [ps Hps].
  exists a, ps. split; [exact Ha |]. split; [exact Hps |].
  intros checkDate rs plan task.
  destruct (start_execution_pass checkDate td ps a rs (executeTimer_valid td a ps Ha Hps))
    as [Hinv [Hdone Hfail]].
  fold plan in Hinv, Hdone, Hfail. fold task in Hinv, Hdone, Hfail.
  split; [exact Hinv |]. split; [exact Hdone |]. split; [exact Hfail |].
  rewrite Hinv. intros Hin.
  destruct (Nat.le_gt_cases (List.length ps) (fulfilled_prefix rs)) as [Hle | Hgt];
    [exact Hle | exfalso].
  unfold plan in Hin. rewrite firstn_app in Hin.
  replace (S (fulfilled_prefix rs) - List.length (map RunPreAction ps))%nat with O in Hin
    by (rewrite length_map; lia).
  rewrite firstn_O, app_nil_r in Hin.
  apply In_firstn in Hin. apply in_map_iff in Hin. destruct Hin as [p [Hp _]].
  discriminate Hp.
Qed.

(** The two ways the action [switch] leaves [action] undefined. *)
Lemma unrecognized_action_warns (td : ValetudoTimer) (ad : ActionDefinition) :
  action td = Some ad ->
  new_action td = None ->
  executeTimer td
  = Logger_warn ("Error while executing timer " ++ id td)%string
      ("Couldn't find timer action for type: " ++ JS.ToString (action_type ad))%string
      (Ret tt).
Proof.
  intros Had Hnone. unfold executeTimer, action_dot_type. now rewrite Hnone, Had.
Qed.

Lemma absent_action_throws (td : ValetudoTimer) :
  action td = None ->
  executeTimer td
  = Throw (JS.TypeError "Cannot read properties of undefined (reading 'type')").
Proof.
  intros Had. unfold executeTimer, action_dot_type, new_action.
  rewrite Had. reflexivity.
Qed.

(** C10. A timer whose [pre_actions] is no array is executed as the same
    timer with an empty array: when its action tag resolves, the body is
    the single awaited run of the terminal action, so the call logs
    nothing, invokes no pre-action, and invokes the terminal action at
    once. *)
Theorem missing_pre_actions_as_empty (td : ValetudoTimer) :
  pre_actions td = None ->
  executeTimer td = executeTimer (with_pre_actions td (Some []))
  /\ forall a, new_action td = Some a ->
       executeTimer td = await_run (RunAction a)
       /\ forall checkDate,
            spawn checkDate td
            = ({| task_timer := td;
                  task_checkDate := checkDate;
                  task_invoked := [RunAction a];
                  task_promise :=
                    Suspended (fun s => match s with
                                        | Fulfilled => Ret tt
                                        | Rejected e => Throw e
                                        end) |}, []).
Proof.
  intros Hpre.
  assert (Hsame : new_action (with_pre_actions td (Some [])) = new_action td) by reflexivity.
  split.
  - unfold executeTimer. rewrite Hsame, Hpre.
    destruct (new_action td); reflexivity.
  - intros a Ha.
    assert (E : executeTimer td = await_run (RunAction a)).
    { unfold executeTimer. rewrite Ha, Hpre. reflexivity. }
    split; [exact E |]. intros checkDate. unfold spawn. rewrite E. reflexivity.
Qed.

(** ** Many pipelines *)

Lemma run_reaction_quiescent (task : Task) :
  quiescent task -> run_reaction task = (task, []).
Proof.
  unfold quiescent, run_reaction.
  destruct (task_promise task); [reflexivity | contradiction | reflexivity].
Qed.

Lemma run_reaction_settles (task : Task) : quiescent (fst (run_reaction task)).
Proof.
  unfold quiescent, run_reaction.
  destruct (task_promise task) eqn:E; cbn [fst task_promise]; try rewrite E; exact I.
Qed.

Lemma microtasks_quiescent (w : World) : Forall quiescent (tasks (microtasks w)).
Proof.
  unfold microtasks. cbn [tasks]. apply Forall_forall. intros task Htask.
  apply in_map_iff in Htask. destruct Htask as [task0 [<- _]]. apply run_reaction_settles.
Qed.

Lemma settle_task_nth (ts : list Task) (tid : nat) (s : Settlement) (j : nat) :
  nth_error (fst (settle_task tid s ts)) j
  = option_map (fun task => if Nat.eqb j tid then fst (resume task s) else task)
      (nth_error ts j).
Proof.
  revert tid j. induction ts as [| task ts IH]; intros tid j.
  - destruct tid, j; reflexivity.
  - destruct tid as [| tid]; cbn [settle_task].
    + destruct (resume task s) as [task' log] eqn:E. cbn [fst].
      destruct j as [| j]; cbn [nth_error option_map Nat.eqb]; [now rewrite E |].
      now destruct (nth_error ts j).
    + specialize (IH tid). destruct (settle_task tid s ts) as [rest' log]. cbn [fst] in *.
      destruct j as [| j]; cbn [nth_error option_map Nat.eqb]; [reflexivity | apply IH].
Qed.

Lemma settle_quiescent (tid : nat) (s : Settlement) (w : World) :
  Forall quiescent (tasks (settle tid s w)).
Proof.
  unfold settle. destruct (settle_task tid s (tasks w)) as [ts log].
  apply microtasks_quiescent.
Qed.

Lemma settle_nth (tid : nat) (s : Settlement) (w : World) (j : nat) :
  Forall quiescent (tasks w) ->
  nth_error (tasks (settle tid s w)) j
  = option_map (fun task => if Nat.eqb j tid then task_settle task s else task)
      (nth_error (tasks w) j).
Proof.
  intros Hq. unfold settle.
  pose proof (settle_task_nth (tasks w) tid s j) as Hnth.
  destruct (settle_task tid s (tasks w)) as [ts log]. cbn [fst] in Hnth.
  unfold microtasks. cbn [tasks]. rewrite nth_error_map, Hnth.
  destruct (nth_error (tasks w) j) as [task |] eqn:E; [| reflexivity].
  cbn [option_map]. f_equal. destruct (Nat.eqb j tid); [reflexivity |].
  rewrite run_reaction_quiescent; [reflexivity |].
  rewrite Forall_forall in Hq. apply Hq. eapply nth_error_In. exact E.
Qed.

Lemma run_events_quiescent (events : list (nat * Settlement)) (w : World) :
  Forall quiescent (tasks w) -> Forall quiescent (tasks (run_events events w)).
Proof.
  revert w. induction events as [| [tid s] events IH]; intros w Hq; [exact Hq |].
  unfold run_events. cbn [fold_left fst snd]. apply IH. apply settle_quiescent.
Qed.

(** After any run of the event loop, a pipeline is where its own
    settlements alone would have brought it. *)
Lemma run_events_nth (events : list (nat * Settlement)) (w : World) (j : nat) :
  Forall quiescent (tasks w) ->
  nth_error (tasks (run_events events w)) j
  = option_map (fun task => replay task (settlements_for j events)) (nth_error (tasks w) j).
Proof.
  revert w. induction events as [| [tid s] events IH]; intros w Hq.
  - cbn. now destruct (nth_error (tasks w) j).
  - unfold run_events. cbn [fold_left fst snd]. fold (run_events events (settle tid s w)).
    rewrite IH by apply settle_quiescent. rewrite settle_nth by exact Hq.
    destruct (nth_error (tasks w) j) as [task |]; [| reflexivity].
    cbn [option_map]. f_equal. unfold settlements_for. cbn [filter fst].
    rewrite (Nat.eqb_sym tid j). destruct (Nat.eqb j tid); reflexivity.
Qed.

Lemma tick_tasks (this : Scheduler) (nowTime : Z) (w : World) :
  exists ts,
    checkDates (snd (tick this nowTime w)) = checkDates w ++ ts
    /\ tasks (snd (tick this nowTime w))
       = map (fun task => fst (run_reaction task)) (tasks w)
           ++ flat_map (fun t => map (start t) (due_timers (timers (config this)) t)) ts
    /\ (gate_closed this = false ->
        let next := revalidate (nextScheduledCheckTime this) nowTime in
        ts = minute_instants next (elapsed_minutes next nowTime)
        /\ nextScheduledCheckTime (fst (tick this nowTime w))
           = Some (next + MS_PER_MIN * Z.of_nat (elapsed_minutes next nowTime))).
Proof.
  assert (Hmap : forall ts,
             map (fun task => fst (run_reaction task))
               (flat_map (dispatched_at (timers (config this))) ts)
             = flat_map (fun t => map (start t) (due_timers (timers (config this)) t)) ts).
  { induction ts as [| t ts IH]; [reflexivity |].
    cbn [flat_map]. rewrite map_app, IH. f_equal.
    unfold dispatched_at. rewrite map_map. reflexivity. }
  unfold tick. destruct (gate_closed this) eqn:Hgate.
  - exists []. rewrite (evaluateTimers_closed this nowTime w Hgate).
    cbn [snd fst microtasks checkDates tasks flat_map]. rewrite !app_nil_r.
    split; [reflexivity |]. split; [reflexivity | discriminate].
  - eexists. rewrite (evaluateTimers_open this nowTime w Hgate), drain_world.
    cbn [snd fst microtasks checkDates tasks nextScheduledCheckTime].
    split; [reflexivity |]. split; [| intros _; split; reflexivity].
    now rewrite map_app, Hmap.
Qed.

(** C7. A tick runs to its end whatever the timers it dispatches do: with
    the gate open the watermark ends at the value fixed by the old
    watermark and the clock reading alone, at or after the reading; every
    timer due at a checked instant gets its pipeline, in the state its own
    definition gives it; and when the tick is over no rejection is left
    without its reaction. Through any later settlements, of whatever
    pipelines and with whatever outcome, every pipeline is in the state
    that its own settlements alone bring it to. *)
Theorem failures_stay_within_their_pipeline (this : Scheduler) (nowTime : Z) (w : World) :
  (exists ts,
     checkDates (snd (tick this nowTime w)) = checkDates w ++ ts
     /\ tasks (snd (tick this nowTime w))
        = map (fun task => fst (run_reaction task)) (tasks w)
            ++ flat_map (fun t => map (start t) (due_timers (timers (config this)) t)) ts
     /\ (gate_closed this = false ->
         let next := revalidate (nextScheduledCheckTime this) nowTime in
         ts = minute_instants next (elapsed_minutes next nowTime)
         /\ nextScheduledCheckTime (fst (tick this nowTime w))
            = Some (next + MS_PER_MIN * Z.of_nat (elapsed_minutes next nowTime))
         /\ nowTime <= next + MS_PER_MIN * Z.of_nat (elapsed_minutes next nowTime)))
  /\ Forall quiescent (tasks (snd (tick this nowTime w)))
  /\ forall events,
       Forall quiescent (tasks (run_events events (snd (tick this nowTime w))))
       /\ forall j,
            nth_error (tasks (run_events events (snd (tick this nowTime w)))) j
            = option_map (fun task => replay task (settlements_for j events))
                (nth_error (tasks (snd (tick this nowTime w))) j).
Proof.
  assert (Hq : Forall quiescent (tasks (snd (tick this nowTime w)))).
  { unfold tick. destruct (evaluateTimers this nowTime w) as [this' w'].
    cbn [snd]. apply microtasks_quiescent. }
  split; [| split; [exact Hq |]].
  - destruct (tick_tasks this nowTime w) as [ts [Hdates [Htasks Hopen]]].
    exists ts. split; [exact Hdates |]. split; [exact Htasks |].
    intros Hgate next. destruct (Hopen Hgate) as [Hts Hnext].
    split; [exact Hts |]. split; [exact Hnext |].
    destruct (tick_leaves_watermark_within_a_minute this nowTime w Hgate) as [wm [Hwm Hb]].
    rewrite (evaluateTimers_open this nowTime w Hgate) in Hwm.
    cbn [fst nextScheduledCheckTime] in Hwm. fold next in Hwm.
    assert (E : next + MS_PER_MIN * Z.of_nat (elapsed_minutes next nowTime) = wm)
      by congruence.
    rewrite E. lia.
  - intros events. split.
    + now apply run_events_quiescent.
    + intros j. now apply run_events_nth.
Qed.

(** ** Runs of ticks *)

Lemma elapsed_minutes_unique (w t : Z) (n : nat) :
  (forall i : nat, (i < n)%nat <-> w + MS_PER_MIN * Z.of_nat i < t) ->
  elapsed_minutes w t = n.
Proof.
  intros H.
  pose proof (elapsed_minutes_lt w t n) as H1.
  pose proof (elapsed_minutes_lt w t (elapsed_minutes w t)) as H2.
  pose proof (H n) as H3. pose proof (H (elapsed_minutes w t)) as H4.
  lia.
Qed.

Lemma elapsed_minutes_app (w t1 t2 : Z) :
  t1 <= t2 ->
  elapsed_minutes w t2
  = (elapsed_minutes w t1
     + elapsed_minutes (w + MS_PER_MIN * Z.of_nat (elapsed_minutes w t1)) t2)%nat.
Proof.
  intros Hle. apply elapsed_minutes_unique. intros i.
  set (n1 := elapsed_minutes w t1).
  destruct (Nat.lt_ge_cases i n1) as [Hlt | Hge].
  - pose proof (proj1 (elapsed_minutes_lt w t1 i) Hlt). lia.
  - pose proof (elapsed_minutes_lt (w + MS_PER_MIN * Z.of_nat n1) t2 (i - n1)) as H.
    replace (w + MS_PER_MIN * Z.of_nat n1 + MS_PER_MIN * Z.of_nat (i - n1))
      with (w + MS_PER_MIN * Z.of_nat i) in H by (unfold MS_PER_MIN; lia).
    lia.
Qed.

Lemma minute_instants_app (w : Z) (n m : nat) :
  minute_instants w (n + m)
  = minute_instants w n ++ minute_instants (w + MS_PER_MIN * Z.of_nat n) m.
Proof.
  revert w. induction n as [| n IH]; intros w.
  - cbn [Nat.add]. unfold minute_instants at 2. cbn [seq map app].
    f_equal. unfold MS_PER_MIN. lia.
  - cbn [Nat.add]. rewrite !minute_instants_succ, IH. cbn [app]. do 3 f_equal.
    unfold MS_PER_MIN. lia.
Qed.

Lemma gate_closed_input (input : TickInput) (watermark : option Z) :
  gate_closed {| config := tick_config input;
                 ntpClient := tick_ntp input;
                 nextScheduledCheckTime := watermark |}
  = input_gate_closed input.
Proof. reflexivity. Qed.

Lemma last_reading_cons (input : TickInput) (rest : list TickInput) (previous : Z) :
  last_reading previous (input :: rest) = last_reading (tick_now input) rest.
Proof.
  unfold last_reading. cbn [map].
  destruct rest as [| input' rest]; [reflexivity |].
  cbn [map List.last]. generalize (map tick_now rest) as l.
  induction l as [| x l IH]; [reflexivity |].
  cbn [List.last]. destruct l; [reflexivity | exact IH].
Qed.

Lemma paced_last_reading (inputs : list TickInput) (previous : Z) :
  paced previous inputs -> previous <= last_reading previous inputs.
Proof.
  revert previous.
  induction inputs as [| input rest IH]; intros previous Hp.
  - unfold last_reading. cbn [map List.last]. lia.
  - destruct Hp as [Hgap Hrest]. specialize (IH (tick_now input) Hrest).
    rewrite last_reading_cons. unfold MS_PER_MIN in Hgap. lia.
Qed.

(** One tick with the gate open and a valid watermark, inside a run. *)
Lemma run_tick_valid (input : TickInput) (sw : Scheduler * World) (wm : Z) :
  input_gate_closed input = false ->
  nextScheduledCheckTime (fst sw) = Some wm ->
  wm <= tick_now input ->
  tick_now input - wm <= 60 * MS_PER_MIN ->
  let n := elapsed_minutes wm (tick_now input) in
  checkDates (snd (run_tick input sw)) = checkDates (snd sw) ++ minute_instants wm n
  /\ nextScheduledCheckTime (fst (run_tick input sw)) = Some (wm + MS_PER_MIN * Z.of_nat n)
  /\ tick_now input <= wm + MS_PER_MIN * Z.of_nat n < tick_now input + MS_PER_MIN.
Proof.
  intros Hgate Hwm Hle Hfresh n. unfold run_tick, tick.
  rewrite evaluateTimers_open by apply Hgate.
  cbn [fst snd microtasks checkDates nextScheduledCheckTime config].
  rewrite Hwm, revalidate_valid by assumption. fold n.
  rewrite drain_world. cbn [checkDates].
  split; [reflexivity |]. split; [reflexivity |].
  pose proof (elapsed_minutes_lt wm (tick_now input) n) as H1.
  destruct n as [| m] eqn:E.
  - unfold MS_PER_MIN in *. lia.
  - pose proof (elapsed_minutes_lt wm (tick_now input) m) as H2.
    fold n in H2. unfold MS_PER_MIN in *. lia.
Qed.

Lemma paced_run (inputs : list TickInput) :
  forall (sw : Scheduler * World) (previous wm : Z),
    Forall (fun input => input_gate_closed input = false) inputs ->
    paced previous inputs ->
    nextScheduledCheckTime (fst sw) = Some wm ->
    previous <= wm < previous + MS_PER_MIN ->
    let n := elapsed_minutes wm (last_reading previous inputs) in
    checkDates (snd (run_ticks inputs sw)) = checkDates (snd sw) ++ minute_instants wm n
    /\ nextScheduledCheckTime (fst (run_ticks inputs sw))
       = Some (wm + MS_PER_MIN * Z.of_nat n).
Proof.
  induction inputs as [| input rest IH]; intros sw previous wm Hopen Hpaced Hwm Hb n.
  - unfold n, last_reading. cbn [map List.last run_ticks fold_left].
    rewrite elapsed_minutes_zero by lia. unfold minute_instants. cbn [seq map].
    rewrite app_nil_r, Hwm. split; [reflexivity |]. f_equal. lia.
  - inversion Hopen as [| ? ? Hgate Hrest]; subst. destruct Hpaced as [Hgap Hpaced].
    assert (Hle : wm <= tick_now input) by lia.
    assert (Hfresh : tick_now input - wm <= 60 * MS_PER_MIN) by lia.
    destruct (run_tick_valid input sw wm Hgate Hwm Hle Hfresh) as [Hd [Hn Hb']].
    cbn [run_ticks fold_left]. fold (run_ticks rest (run_tick input sw)).
    destruct (IH (run_tick input sw) (tick_now input) _ Hrest Hpaced Hn Hb') as [Hd2 Hn2].
    unfold n. rewrite last_reading_cons.
    rewrite (elapsed_minutes_app wm (tick_now input) (last_reading (tick_now input) rest))
      by (now apply paced_last_reading).
    rewrite minute_instants_app, Hd2, Hn2, Hd, <- app_assoc.
    split; [reflexivity |]. f_equal. lia.
Qed.

(** X1. A tick that passes the gate drains to the present: whatever the
    watermark was, it ends at or after the clock reading and less than a
    minute after it, and every check date of the tick lies before the
    reading. *)
Theorem tick_drains_to_the_present (this : Scheduler) (nowTime : Z) (w : World) :
  gate_closed this = false ->
  exists wm ts,
    nextScheduledCheckTime (fst (evaluateTimers this nowTime w)) = Some wm
    /\ nowTime <= wm < nowTime + MS_PER_MIN
    /\ checkDates (snd (evaluateTimers this nowTime w)) = checkDates w ++ ts
    /\ Forall (fun t => t < nowTime) ts
    /\ (nextScheduledCheckTime this = Some nowTime -> ts = [] /\ wm = nowTime).
Proof.
  intros Hgate.
  destruct (tick_leaves_watermark_within_a_minute this nowTime w Hgate) as [wm [Hwm Hb]].
  exists wm. eexists. split; [exact Hwm |]. split; [exact Hb |].
  rewrite (evaluateTimers_open this nowTime w Hgate) in *. cbn [fst snd] in *.
  rewrite drain_world. cbn [checkDates]. split; [reflexivity |]. split.
  - apply Forall_forall. intros t Ht. apply minute_instants_In in Ht.
    destruct Ht as [i [Hi ->]]. now apply elapsed_minutes_lt.
  - intros Hsame. rewrite Hsame in *.
    rewrite revalidate_valid in * by (unfold MS_PER_MIN; lia).
    rewrite elapsed_minutes_zero in * by lia.
    split; [reflexivity |]. cbn [nextScheduledCheckTime] in Hwm.
    assert (E : nowTime + MS_PER_MIN * Z.of_nat 0 = wm) by congruence. lia.
Qed.

(** X2. The work of one tick is bounded: a tick that passes the gate checks
    at most sixty instants, none of them more than sixty minutes before the
    clock reading. *)
Theorem tick_checks_at_most_sixty_minutes (this : Scheduler) (nowTime : Z) (w : World) :
  exists ts,
    checkDates (snd (evaluateTimers this nowTime w)) = checkDates w ++ ts
    /\ (List.length ts <= 60)%nat
    /\ Forall (fun t => nowTime - 60 * MS_PER_MIN <= t < nowTime) ts.
Proof.
  destruct (gate_closed this) eqn:Hgate.
  - exists []. rewrite (evaluateTimers_closed this nowTime w Hgate). cbn [snd List.length].
    rewrite app_nil_r. split; [reflexivity |]. split; [lia | constructor].
  - eexists. rewrite (evaluateTimers_open this nowTime w Hgate). cbn [snd].
    rewrite drain_world. cbn [checkDates]. split; [reflexivity |].
    pose proof (revalidate_bounds (nextScheduledCheckTime this) nowTime) as [Hle Hfresh].
    set (next := revalidate (nextScheduledCheckTime this) nowTime) in *.
    split.
    + unfold minute_instants. rewrite length_map, length_seq.
      destruct (Nat.le_gt_cases (elapsed_minutes next nowTime) 60) as [H | H]; [exact H |].
      apply (elapsed_minutes_lt next nowTime 60) in H. unfold MS_PER_MIN in *. lia.
    + apply Forall_forall. intros t Ht. apply minute_instants_In in Ht.
      destruct Ht as [i [Hi ->]]. apply elapsed_minutes_lt in Hi.
      unfold MS_PER_MIN in *. lia.
Qed.

(** X3. No minute is skipped and none repeated across ticks: when a fresh
    scheduler is ticked with the gate open and each clock reading follows
    the one before by at least one and at most sixty minutes, the check
    dates of the whole run are the single progression that starts a minute
    before the first reading and runs, in steps of 60000, up to the last
    reading. *)
Theorem paced_ticks_check_every_minute_once
  (first : TickInput) (rest : list TickInput)
  (cfg : Configuration) (ntp : NTPClientState) (w : World) :
  Forall (fun input => input_gate_closed input = false) (first :: rest) ->
  paced (tick_now first) rest ->
  let start_instant := tick_now first - MS_PER_MIN in
  let n := elapsed_minutes start_instant (last_reading (tick_now first) rest) in
  checkDates (snd (run_ticks (first :: rest) (constructor cfg ntp, w)))
  = checkDates w ++ minute_instants start_instant n
  /\ nextScheduledCheckTime (fst (run_ticks (first :: rest) (constructor cfg ntp, w)))
     = Some (start_instant + MS_PER_MIN * Z.of_nat n)
  /\ StronglySorted Z.lt (minute_instants start_instant n)
  /\ (forall i : nat,
        start_instant + MS_PER_MIN * Z.of_nat i < last_reading (tick_now first) rest ->
        In (start_instant + MS_PER_MIN * Z.of_nat i) (minute_instants start_instant n)).
Proof.
  intros Hopen Hpaced start_instant n.
  inversion Hopen as [| ? ? Hgate Hrest]; subst.
  pose proof (paced_last_reading rest (tick_now first) Hpaced) as Hlast.
  assert (Hfirst :
            checkDates (snd (run_tick first (constructor cfg ntp, w)))
            = checkDates w ++ [start_instant]
            /\ nextScheduledCheckTime (fst (run_tick first (constructor cfg ntp, w)))
               = Some (tick_now first)).
  { unfold run_tick, tick. rewrite evaluateTimers_open by apply Hgate.
    cbn [fst snd microtasks checkDates nextScheduledCheckTime constructor revalidate].
    fold start_instant.
    rewrite (elapsed_minutes_between start_instant (tick_now first) 0)
      by (unfold start_instant, MS_PER_MIN; lia).
    change (Z.to_nat (0 + 1)) with 1%nat.
    rewrite drain_world. cbn [checkDates]. unfold minute_instants. cbn [seq map].
    split; [do 2 f_equal | f_equal]; unfold start_instant, MS_PER_MIN; lia. }
  destruct Hfirst as [Hd1 Hn1].
  cbn [run_ticks fold_left]. fold (run_ticks rest (run_tick first (constructor cfg ntp, w))).
  destruct (paced_run rest (run_tick first (constructor cfg ntp, w))
              (tick_now first) (tick_now first) Hrest Hpaced Hn1)
    as [Hd2 Hn2]; [unfold MS_PER_MIN; lia |].
  assert (En : n = S (elapsed_minutes (tick_now first) (last_reading (tick_now first) rest))).
  { unfold n. rewrite elapsed_minutes_succ by (unfold start_instant, MS_PER_MIN; lia).
    do 2 f_equal. unfold start_instant. lia. }
  split; [| split; [| split]].
  - rewrite Hd2, Hd1, En, minute_instants_succ, <- app_assoc. cbn [app].
    do 3 f_equal. unfold start_instant. lia.
  - rewrite Hn2, En. f_equal. unfold start_instant, MS_PER_MIN. lia.
  - apply minute_instants_sorted.
  - intros i Hi. apply minute_instants_In. exists i. split; [| reflexivity].
    now apply elapsed_minutes_lt.
Qed.

(** ** When a timer is due *)

Lemma hours_of_minutes (t : Z) : t / UTCDate.msPerHour = t / UTCDate.msPerMinute / 60.
Proof. unfold UTCDate.msPerHour, UTCDate.msPerMinute. rewrite Z.div_div by lia. reflexivity. Qed.

Lemma days_of_minutes (t : Z) : t / UTCDate.msPerDay = t / UTCDate.msPerMinute / 1440.
Proof. unfold UTCDate.msPerDay, UTCDate.msPerMinute. rewrite Z.div_div by lia. reflexivity. Qed.

Lemma checkTime_of_minute (t t' : Z) :
  t / UTCDate.msPerMinute = t' / UTCDate.msPerMinute -> checkTime_of t = checkTime_of t'.
Proof.
  intros E. unfold checkTime_of, UTCDate.getUTCDay, UTCDate.getUTCHours, UTCDate.getUTCMinutes.
  now rewrite !hours_of_minutes, !days_of_minutes, E.
Qed.

Lemma checkTime_of_week (t : Z) :
  checkTime_of (t + 7 * UTCDate.msPerDay) = checkTime_of t.
Proof.
  unfold checkTime_of, UTCDate.getUTCDay, UTCDate.getUTCHours, UTCDate.getUTCMinutes.
  replace ((t + 7 * UTCDate.msPerDay) / UTCDate.msPerDay) with (t / UTCDate.msPerDay + 7)
    by (unfold UTCDate.msPerDay; rewrite Z.div_add by lia; reflexivity).
  replace ((t + 7 * UTCDate.msPerDay) / UTCDate.msPerHour) with (t / UTCDate.msPerHour + 7 * 24)
    by (unfold UTCDate.msPerDay, UTCDate.msPerHour;
        replace (t + 7 * 86400000) with (t + 7 * 24 * 3600000) by lia;
        rewrite Z.div_add by lia; reflexivity).
  replace ((t + 7 * UTCDate.msPerDay) / UTCDate.msPerMinute)
    with (t / UTCDate.msPerMinute + 168 * 60)
    by (unfold UTCDate.msPerDay, UTCDate.msPerMinute;
        replace (t + 7 * 86400000) with (t + 168 * 60 * 60000) by lia;
        rewrite Z.div_add by lia; reflexivity).
  f_equal.
  - replace (t / UTCDate.msPerDay + 7 + 4) with (t / UTCDate.msPerDay + 4 + 1 * 7) by lia.
    apply Z.mod_add. lia.
  - apply Z.mod_add. lia.
  - apply Z.mod_add. lia.
Qed.

(** X4. Which timers fire at a check date depends only on the minute the
    date lies in, and repeats every week: two instants of the same minute,
    or one week apart, dispatch the same timers. *)
Theorem due_timers_by_minute_and_week
  (timers : list (string * ValetudoTimer)) (t t' : Z) :
  (t / UTCDate.msPerMinute = t' / UTCDate.msPerMinute ->
   due_timers timers t = due_timers timers t')
  /\ due_timers timers (t + 7 * UTCDate.msPerDay) = due_timers timers t.
Proof.
  unfold due_timers. split.
  - intros E. now rewrite (checkTime_of_minute t t' E).
  - now rewrite checkTime_of_week.
Qed.

(** X5. The window of a timer: with [hour] in 0..23 and [minute] in 0..59, a
    timer is due at an instant exactly when it is enabled and the instant
    lies in the minute that starts at [hour]:[minute] UTC of a day whose
    weekday (Thursday 1970-01-01 being 4, Sunday 0) is in [dow]. *)
Theorem due_window (td : ValetudoTimer) (t : Z) :
  0 <= hour td < 24 ->
  0 <= minute td < 60 ->
  (is_due (checkTime_of t) td = true
   <-> enabled td = JS.boolean true
       /\ exists day,
            In ((day + 4) mod 7) (dow td)
            /\ day * UTCDate.msPerDay + hour td * UTCDate.msPerHour
                 + minute td * UTCDate.msPerMinute <= t
               < day * UTCDate.msPerDay + hour td * UTCDate.msPerHour
                 + minute td * UTCDate.msPerMinute + MS_PER_MIN).
Proof.
  intros Hh Hm. rewrite is_due_iff.
  unfold UTCDate.getUTCDay, UTCDate.getUTCHours, UTCDate.getUTCMinutes,
    UTCDate.msPerDay, UTCDate.msPerHour, UTCDate.msPerMinute, MS_PER_MIN.
  split.
  - intros [He [Hd [Eh Em]]]. split; [exact He |].
    exists (t / 86400000). split; [exact Hd |].
    rewrite Eh, Em. clear. Z.div_mod_to_equations. lia.
  - intros [He [day [Hd Hwin]]]. split; [exact He |].
    assert (Eday : t / 86400000 = day) by (Z.div_mod_to_equations; lia).
    rewrite Eday. split; [exact Hd |].
    split; Z.div_mod_to_equations; lia.
Qed.

(** X6. A timer whose [hour] is outside 0..23, or whose [minute] is outside
    0..59, or whose [dow] holds no number of 0..6, is due at no instant. *)
Theorem malformed_schedule_never_due (td : ValetudoTimer) (t : Z) :
  hour td < 0 \/ 24 <= hour td
  \/ minute td < 0 \/ 60 <= minute td
  \/ (forall d, In d (dow td) -> d < 0 \/ 6 < d) ->
  is_due (checkTime_of t) td = false.
Proof.
  intros Hbad. destruct (is_due (checkTime_of t) td) eqn:E; [exfalso | reflexivity].
  apply is_due_iff in E. destruct E as [_ [Hd [Eh Em]]].
  unfold UTCDate.getUTCDay, UTCDate.getUTCHours, UTCDate.getUTCMinutes in *.
  pose proof (Z.mod_pos_bound (t / UTCDate.msPerDay + 4) 7 ltac:(lia)) as Bd.
  pose proof (Z.mod_pos_bound (t / UTCDate.msPerHour) 24 ltac:(lia)) as Bh.
  pose proof (Z.mod_pos_bound (t / UTCDate.msPerMinute) 60 ltac:(lia)) as Bm.
  destruct Hbad as [H | [H | [H | [H | H]]]]; try lia.
  specialize (H _ Hd). lia.
Qed.

(** ** The outcomes of [executeTimer] *)

Lemma new_pre_action_without_params (d : PreActionDefinition) :
  recognized_pre_action d ->
  pre_action_params d = None ->
  new_pre_action d
  = Throw (JS.TypeError "Cannot read properties of undefined (reading 'value')").
Proof.
  intros Hrec Hnone. unfold new_pre_action, params_dot_value. rewrite Hnone.
  destruct (JS.strict_equals (pre_action_type d) (JS.str (FAN_SPEED_CONTROL TYPES))) eqn:E1;
    [reflexivity |].
  destruct (JS.strict_equals (pre_action_type d) (JS.str (WATER_USAGE_CONTROL TYPES))) eqn:E2;
    [reflexivity |].
  destruct (JS.strict_equals (pre_action_type d) (JS.str (OPERATION_MODE_CONTROL TYPES)))
    eqn:E3; [reflexivity |].
  exfalso. destruct Hrec as [H | [H | H]]; apply strict_equals_str in H; congruence.
Qed.

Lemma new_pre_action_unrecognized (d : PreActionDefinition) :
  ~ recognized_pre_action d -> new_pre_action d = Ret None.
Proof.
  intros Hno. destruct (new_pre_action_cases d) as [[_ E] | [Hrec _]];
    [exact E | contradiction].
Qed.

(** The first loop stops at the first entry that does not resolve. *)
Lemma collect_pre_actions_cases (td : ValetudoTimer) (definitions : list PreActionDefinition) :
  forall acc,
    (exists ps,
        Forall2 (fun d p => new_pre_action d = Ret (Some p)) definitions ps
        /\ collect_pre_actions td definitions acc = Ret (Continue (acc ++ ps)))
    \/ (exists good d rest ps,
           definitions = good ++ d :: rest
           /\ Forall2 (fun d p => new_pre_action d = Ret (Some p)) good ps
           /\ ((~ recognized_pre_action d
                /\ collect_pre_actions td definitions acc
                   = Logger_warn ("Error while executing timer " ++ id td)%string
                       ("Couldn't find timer pre_action for type: "
                          ++ JS.ToString (pre_action_type d))%string
                       (Ret Return))
               \/ (recognized_pre_action d /\ pre_action_params d = None
                   /\ collect_pre_actions td definitions acc
                      = Throw (JS.TypeError
                                 "Cannot read properties of undefined (reading 'value')")))).
Proof.
  induction definitions as [| d definitions IH]; intros acc.
  - left. exists []. split; [constructor | cbn; now rewrite app_nil_r].
  - destruct (new_pre_action_cases d) as [[Hno E] | [Hrec [[e [Hnone _]] | [p [_ E]]]]].
    + right. exists [], d, definitions, []. split; [reflexivity |]. split; [constructor |].
      left. split; [exact Hno |]. cbn [collect_pre_actions]. rewrite E. reflexivity.
    + right. exists [], d, definitions, []. split; [reflexivity |]. split; [constructor |].
      right. split; [exact Hrec |]. split; [exact Hnone |].
      cbn [collect_pre_actions]. now rewrite (new_pre_action_without_params d Hrec Hnone).
    + cbn [collect_pre_actions]. rewrite E. cbn [bind].
      destruct (IH (acc ++ [p])) as [[ps [Hps Hc]] | [good [d' [rest [ps [Hdefs [Hps Hc]]]]]]].
      * left. exists (p :: ps). split; [now constructor |]. now rewrite Hc, <- app_assoc.
      * right. exists (d :: good), d', rest, (p :: ps).
        split; [now rewrite Hdefs |]. split; [now constructor |]. exact Hc.
Qed.

(** The three shapes the body of [executeTimer] can take. *)
Lemma executeTimer_shapes (td : ValetudoTimer) :
  (exists a ps, executeTimer td = execution_pass ps a)
  \/ (exists detail,
         executeTimer td
         = Logger_warn ("Error while executing timer " ++ id td)%string detail (Ret tt))
  \/ (exists message, executeTimer td = Throw (JS.TypeError message)).
Proof.
  unfold executeTimer, action_dot_type.
  destruct (new_action td) as [a |].
  - destruct (pre_actions td) as [definitions |].
    + destruct (collect_pre_actions_cases td definitions [])
        as [[ps [_ Hc]] | [good [d [rest [ps [_ [_ [[_ Hc] | [_ [_ Hc]]]]]]]]]]; rewrite Hc.
      * left. now exists a, ps.
      * right. left. eexists. reflexivity.
      * right. right. eexists. reflexivity.
    + left. now exists a, [].
  - destruct (action td) as [ad |].
    + right. left. eexists. reflexivity.
    + right. right. eexists. reflexivity.
Qed.

(** X7. A call of [executeTimer] has one of three outcomes and no other. The
    action and every pre-action entry resolve, and the body is the execution
    pass over the handlers built. Or it writes exactly one warning, invokes
    nothing and returns: the action is present with an unknown type, or the
    first pre-action entry that does not resolve has an unknown type. Or it
    throws a [TypeError] before logging or invoking anything: the action is
    absent, or that first entry has a known type but no [params]. *)
Theorem executeTimer_outcomes (td : ValetudoTimer) :
  (exists a ps,
      new_action td = Some a
      /\ Forall2 (fun d p => new_pre_action d = Ret (Some p)) (pre_action_definitions td) ps
      /\ executeTimer td = execution_pass ps a)
  \/ (exists detail,
         executeTimer td
         = Logger_warn ("Error while executing timer " ++ id td)%string detail (Ret tt)
         /\ ((new_action td = None /\ action td <> None)
             \/ (exists good d rest,
                    new_action td <> None
                    /\ pre_actions td = Some (good ++ d :: rest)
                    /\ Forall (fun d => recognized_pre_action d /\ pre_action_params d <> None)
                         good
                    /\ ~ recognized_pre_action d)))
  \/ (exists message,
         executeTimer td = Throw (JS.TypeError message)
         /\ ((new_action td = None /\ action td = None)
             \/ (exists good d rest,
                    new_action td <> None
                    /\ pre_actions td = Some (good ++ d :: rest)
                    /\ Forall (fun d => recognized_pre_action d /\ pre_action_params d <> None)
                         good
                    /\ recognized_pre_action d /\ pre_action_params d = None))).
Proof.
  assert (Hgood : forall good ps,
             Forall2 (fun d p => new_pre_action d = Ret (Some p)) good ps ->
             Forall (fun d => recognized_pre_action d /\ pre_action_params d <> None) good).
  { induction 1 as [| d p good ps Hd _ IH]; constructor; [| exact IH].
    destruct (new_pre_action_cases d) as [[_ E] | [Hrec [[e [_ E]] | [p' [Hp _]]]]];
      [congruence | congruence | now split]. }
  destruct (new_action td) as [a |] eqn:Ha.
  - destruct (pre_actions td) as [definitions |] eqn:Hpre.
    + destruct (collect_pre_actions_cases td definitions [])
        as [[ps [Hps Hc]] | [good [d [rest [ps [Hdefs [Hps [[Hno Hc] | [Hrec [Hnone Hc]]]]]]]]]].
      * left. exists a, ps. split; [reflexivity |].
        unfold pre_action_definitions. rewrite Hpre. split; [exact Hps |].
        unfold executeTimer. rewrite Ha, Hpre, Hc. reflexivity.
      * right. left. eexists. split.
        -- unfold executeTimer. rewrite Ha, Hpre, Hc. reflexivity.
        -- right. exists good, d, rest. split; [discriminate |]. split; [now rewrite Hdefs |].
           split; [exact (Hgood good ps Hps) | exact Hno].
      * right. right. eexists. split.
        -- unfold executeTimer. rewrite Ha, Hpre, Hc. reflexivity.
        -- right. exists good, d, rest. split; [discriminate |]. split; [now rewrite Hdefs |].
           split; [exact (Hgood good ps Hps) |]. now split.
    + left. exists a, []. split; [reflexivity |].
      unfold pre_action_definitions. rewrite Hpre. split; [constructor |].
      unfold executeTimer. rewrite Ha, Hpre. reflexivity.
  - destruct (action td) as [ad |] eqn:Had.
    + right. left. eexists. split.
      * apply (unrecognized_action_warns td ad Had Ha).
      * left. split; [reflexivity | discriminate].
    + right. right. eexists. split.
      * apply (absent_action_throws td Had).
      * left. now split.
Qed.

(** X8. A pre-action entry of known type without [params] aborts the timer
    like an unknown type does, but by an exception: when the action
    resolves and the entries before it resolve, the call throws the
    [TypeError] of reading [params.value], logs no warning, and no device
    operation is ever invoked; the pipeline ends rejected. *)
Theorem pre_action_without_params_rejects
  (td : ValetudoTimer) (good rest : list PreActionDefinition) (d : PreActionDefinition) :
  new_action td <> None ->
  pre_actions td = Some (good ++ d :: rest) ->
  Forall (fun d => recognized_pre_action d /\ pre_action_params d <> None) good ->
  recognized_pre_action d ->
  pre_action_params d = None ->
  executeTimer td
  = Throw (JS.TypeError "Cannot read properties of undefined (reading 'value')")
  /\ forall checkDate rs,
       replay (start checkDate td) rs
       = {| task_timer := td;
            task_checkDate := checkDate;
            task_invoked := [];
            task_promise :=
              Done (Rejected (JS.TypeError
                      "Cannot read properties of undefined (reading 'value')")) |}.
Proof.
  intros Ha Hpre Hgood Hrec Hnone.
  assert (Hc : forall acc,
             collect_pre_actions td (good ++ d :: rest) acc
             = Throw (JS.TypeError "Cannot read properties of undefined (reading 'value')")).
  { clear Hpre. induction Hgood as [| g good [Hg1 Hg2] _ IH]; intros acc.
    - cbn [app collect_pre_actions].
      now rewrite (new_pre_action_without_params d Hrec Hnone).
    - cbn [app collect_pre_actions].
      destruct (new_pre_action_cases g) as [[Hno _] | [_ [[e [Hn _]] | [p [_ E]]]]];
        [contradiction | contradiction |].
      rewrite E. cbn [bind]. apply IH. }
  assert (E : executeTimer td
              = Throw (JS.TypeError "Cannot read properties of undefined (reading 'value')")).
  { unfold executeTimer. destruct (new_action td) as [a |]; [| contradiction].
    rewrite Hpre, Hc. reflexivity. }
  split; [exact E |]. intros checkDate rs.
  apply (start_settled checkDate td []). now rewrite E.
Qed.

(** ** The event loop as a whole *)

Lemma advance_not_done (body : Async unit) (s : Settlement) :
  snd (advance body) <> Done s.
Proof.
  induction body as [u | e | a b k IH | op k _]; cbn [advance snd]; try discriminate.
  destruct (advance k) as [[log ops] st]. exact IH.
Qed.

Lemma spawn_not_done (t : Z) (td : ValetudoTimer) (s : Settlement) :
  task_promise (fst (spawn t td)) <> Done s.
Proof.
  unfold spawn. pose proof (advance_not_done (executeTimer td) s) as H.
  destruct (advance (executeTimer td)) as [[log ops] st]. exact H.
Qed.

Lemma resume_done (task : Task) (s x : Settlement) :
  task_promise (fst (resume task s)) = Done x -> fst (resume task s) = task.
Proof.
  unfold resume. destruct (task_promise task) as [k | s' | s'] eqn:E; try reflexivity.
  pose proof (advance_not_done (k s) x) as H.
  destruct (advance (k s)) as [[log ops] st]. cbn [fst task_promise snd] in *.
  intros Hd. contradiction.
Qed.

Lemma settle_task_done (ts : list Task) (tid : nat) (s x : Settlement) (task : Task) :
  In task (fst (settle_task tid s ts)) -> task_promise task = Done x -> In task ts.
Proof.
  revert tid. induction ts as [| t ts IH]; intros tid Hin Hd.
  - destruct tid; exact Hin.
  - destruct tid as [| tid]; cbn [settle_task] in Hin.
    + pose proof (resume_done t s x) as Hr.
      destruct (resume t s) as [t' log]. cbn [fst] in *.
      destruct Hin as [<- | Hin]; [left; symmetry; now apply Hr | now right].
    + specialize (IH tid). destruct (settle_task tid s ts) as [rest' log]. cbn [fst] in *.
      destruct Hin as [<- | Hin]; [now left | right; now apply IH].
Qed.

Lemma microtasks_reported (w : World) :
  rejections_reported w -> rejections_reported (microtasks w).
Proof.
  intros Hw task e Hin Hd. unfold microtasks in *. cbn [tasks logger] in *.
  apply in_map_iff in Hin. destruct Hin as [task0 [E Hin0]].
  apply in_or_app. unfold run_reaction in E.
  destruct (task_promise task0) as [k | s | s] eqn:E0; cbn [fst] in E; subst task.
  - congruence.
  - right. apply in_flat_map. exists task0. split; [exact Hin0 |].
    unfold run_reaction. rewrite E0. cbn [snd task_promise] in *.
    injection Hd as ->. left. reflexivity.
  - left. now apply Hw.
Qed.

Lemma settle_reported (tid : nat) (s : Settlement) (w : World) :
  rejections_reported w -> rejections_reported (settle tid s w).
Proof.
  intros Hw. unfold settle.
  pose proof (settle_task_done (tasks w) tid s) as Hdone.
  destruct (settle_task tid s (tasks w)) as [ts log]. cbn [fst] in Hdone.
  apply microtasks_reported. intros task e Hin Hd. cbn [tasks logger] in *.
  apply in_or_app. left. apply Hw; [| exact Hd]. exact (Hdone (Rejected e) task Hin Hd).
Qed.

Lemma evaluateTimers_reported (this : Scheduler) (nowTime : Z) (w : World) :
  rejections_reported w -> rejections_reported (snd (evaluateTimers this nowTime w)).
Proof.
  intros Hw. destruct (gate_closed this) eqn:Hgate.
  - now rewrite (evaluateTimers_closed this nowTime w Hgate).
  - rewrite (evaluateTimers_open this nowTime w Hgate). cbn [snd]. rewrite drain_world.
    intros task e Hin Hd. cbn [tasks logger] in *.
    apply in_app_or in Hin. destruct Hin as [Hin | Hin].
    + apply in_or_app. left. now apply Hw.
    + exfalso. apply dispatched_In in Hin. destruct Hin as [t [td [_ [_ ->]]]].
      exact (spawn_not_done t td (Rejected e) Hd).
Qed.

Lemma run_macrotask_reported (m : Macrotask) (sw : Scheduler * World) :
  rejections_reported (snd sw) -> rejections_reported (snd (run_macrotask m sw)).
Proof.
  intros Hw. destruct m as [input | tid s]; cbn [run_macrotask snd].
  - unfold run_tick, tick.
    match goal with
    | |- context [evaluateTimers ?this ?n ?w0] =>
        pose proof (evaluateTimers_reported this n w0 Hw) as H;
        destruct (evaluateTimers this n w0) as [this' w']
    end.
    cbn [snd] in *. now apply microtasks_reported.
  - now apply settle_reported.
Qed.

Lemma run_macrotask_quiescent (m : Macrotask) (sw : Scheduler * World) :
  Forall quiescent (tasks (snd (run_macrotask m sw))).
Proof.
  destruct m as [input | tid s]; cbn [run_macrotask snd].
  - unfold run_tick, tick.
    match goal with
    | |- context [evaluateTimers ?this ?n ?w0] =>
        destruct (evaluateTimers this n w0) as [this' w']
    end.
    cbn [snd]. apply microtasks_quiescent.
  - apply settle_quiescent.
Qed.

(** X9. No failure is silent. In every world reached from the empty one by
    ticks and settlements in any order, each pipeline that ended rejected
    has its line in the log, an error entry naming its timer and carrying
    the reason of the rejection, and no settled pipeline is left without
    its reaction. *)
Theorem every_rejection_is_reported
  (ms : list Macrotask) (cfg : Configuration) (ntp : NTPClientState) :
  rejections_reported (snd (run_macrotasks ms (constructor cfg ntp, nothing_yet)))
  /\ Forall quiescent (tasks (snd (run_macrotasks ms (constructor cfg ntp, nothing_yet)))).
Proof.
  assert (H : forall ms sw,
             rejections_reported (snd sw) /\ Forall quiescent (tasks (snd sw)) ->
             rejections_reported (snd (run_macrotasks ms sw))
             /\ Forall quiescent (tasks (snd (run_macrotasks ms sw)))).
  { clear ms. induction ms as [| m ms IH]; intros sw Hsw; [exact Hsw |].
    unfold run_macrotasks. cbn [fold_left]. apply IH. split.
    - apply run_macrotask_reported. apply Hsw.
    - apply run_macrotask_quiescent. }
  apply H. split.
  - intros task e [].
  - constructor.
Qed.

Lemma reactions_of_quiescent (ts : list Task) :
  Forall quiescent ts -> map (fun task => fst (run_reaction task)) ts = ts.
Proof.
  induction 1 as [| task ts Hq _ IH]; [reflexivity |].
  cbn [map]. now rewrite IH, (run_reaction_quiescent task Hq).
Qed.

(** X10. Later ticks leave running pipelines alone. Through any sequence of
    ticks and settlements, a pipeline that exists is in the state that its
    own settlements alone bring it to: no tick cancels, restarts or
    advances it, and no settlement of another pipeline reaches it. *)
Theorem pipelines_undisturbed_by_later_ticks (ms : list Macrotask) :
  forall (sw : Scheduler * World) (j : nat) (task : Task),
    Forall quiescent (tasks (snd sw)) ->
    nth_error (tasks (snd sw)) j = Some task ->
    nth_error (tasks (snd (run_macrotasks ms sw))) j
    = Some (replay task (settlements_of j ms)).
Proof.
  induction ms as [| m ms IH]; intros sw j task Hq Hj; [exact Hj |].
  unfold run_macrotasks. cbn [fold_left]. fold (run_macrotasks ms (run_macrotask m sw)).
  destruct m as [input | tid s]; cbn [settlements_of flat_map app].
  - apply IH; [apply (run_macrotask_quiescent (IntervalFires input)) |].
    cbn [run_macrotask]. unfold run_tick.
    match goal with
    | |- context [tick ?this ?n ?w0] =>
        destruct (tick_tasks this n w0) as [ts [_ [Htasks _]]]
    end.
    rewrite Htasks, (reactions_of_quiescent _ Hq).
    rewrite nth_error_app1; [exact Hj |]. apply nth_error_Some. congruence.
  - fold (settlements_of j ms).
    rewrite (IH (run_macrotask (OperationSettles tid s) sw) j
               (if Nat.eqb j tid then task_settle task s else task)).
    + rewrite (Nat.eqb_sym tid j). destruct (Nat.eqb j tid); reflexivity.
    + apply (run_macrotask_quiescent (OperationSettles tid s)).
    + cbn [run_macrotask snd]. rewrite (settle_nth tid s (snd sw) j Hq), Hj. reflexivity.
Qed.

(** X11. A tick does not look at the pipelines already running: on a world
    whose pipelines have had their reactions, it keeps them as they are and
    appends the pipelines it would have dispatched on an empty world, so a
    timer is dispatched again while an earlier pipeline of the same timer
    is still suspended; the watermark it leaves is the same too. *)
Theorem tick_ignores_running_pipelines (this : Scheduler) (nowTime : Z) (w : World) :
  Forall quiescent (tasks w) ->
  tasks (snd (tick this nowTime w)) = tasks w ++ tasks (snd (tick this nowTime nothing_yet))
  /\ fst (tick this nowTime w) = fst (tick this nowTime nothing_yet).
Proof.
  intros Hq. unfold tick. destruct (gate_closed this) eqn:Hgate.
  - rewrite !(evaluateTimers_closed this nowTime _ Hgate).
    cbn [snd fst microtasks tasks nothing_yet map]. rewrite app_nil_r.
    split; [now apply reactions_of_quiescent | reflexivity].
  - rewrite !(evaluateTimers_open this nowTime _ Hgate), !drain_world.
    cbn [snd fst microtasks tasks nothing_yet app]. rewrite map_app.
    split; [now rewrite (reactions_of_quiescent _ Hq) | reflexivity].
Qed.

Lemma replay_stays_in_pass (rs : list Settlement) :
  forall (task : Task) (k : Settlement -> Async unit) (rest : list DeviceOp),
    task_promise task = Suspended k ->
    awaits k rest ->
    (exists s, task_promise (replay task rs) = Done s)
    \/ (exists k' rest', task_promise (replay task rs) = Suspended k' /\ awaits k' rest').
Proof.
  induction rs as [| r rs IH]; intros task k rest Hsusp Hk.
  - right. now exists k, rest.
  - unfold replay. cbn [fold_left]. fold (replay (task_settle task r) rs).
    assert (Hcases :
              (exists s, task_promise (task_settle task r) = Done s)
              \/ (exists k' rest', task_promise (task_settle task r) = Suspended k'
                                   /\ awaits k' rest')).
    { unfold task_settle, resume. rewrite Hsusp.
      destruct rest as [| op rest]; destruct Hk as [Hrej Hful]; destruct r as [| e0].
      - rewrite Hful. left. now exists Fulfilled.
      - rewrite Hrej. left. now exists (Rejected e0).
      - destruct Hful as [k' [Hadv Hk']]. rewrite Hadv. right. now exists k', rest.
      - rewrite Hrej. left. now exists (Rejected e0). }
    destruct Hcases as [[s Hd] | [k' [rest' [Hs' Hk']]]].
    + left. exists s. now rewrite (replay_done _ s rs Hd).
    + exact (IH _ k' rest' Hs' Hk').
Qed.

(** X12. Warnings are written by the call alone. A pipeline that is resumed
    by a settlement writes nothing to the log, whatever its timer and
    whatever settlements came before: all that a pipeline adds to the log
    after the call returned is the error line of its rejection. *)
Theorem resumed_pipeline_logs_nothing
  (td : ValetudoTimer) (checkDate : Z) (rs : list Settlement) (s : Settlement) :
  snd (resume (replay (start checkDate td) rs) s) = [].
Proof.
  assert (Hdone : forall task x, task_promise task = Done x -> snd (resume task s) = []).
  { intros task x Hd. unfold resume. now rewrite Hd. }
  destruct (executeTimer_shapes td) as [[a [ps E]] | [[detail E] | [message E]]].
  - destruct (execution_pass_awaits ps a) as [op [rest [k [_ [Hadv Hk]]]]].
    assert (Es : task_promise (start checkDate td) = Suspended k).
    { unfold start, spawn. rewrite E, Hadv. reflexivity. }
    destruct (replay_stays_in_pass rs _ k rest Es Hk) as [[x Hd] | [k' [rest' [Hs' Hk']]]].
    + exact (Hdone _ x Hd).
    + unfold resume. rewrite Hs'.
      destruct rest' as [| op' rest']; destruct Hk' as [Hrej Hful]; destruct s as [| e0].
      * now rewrite Hful.
      * now rewrite Hrej.
      * destruct Hful as [k'' [Hadv' _]]. now rewrite Hadv'.
      * now rewrite Hrej.
  - rewrite (start_settled checkDate td [LogWarn _ detail] Fulfilled)
      by (rewrite E; reflexivity).
    now apply (Hdone _ Fulfilled).
  - rewrite (start_settled checkDate td [] (Rejected (JS.TypeError message)))
      by (rewrite E; reflexivity).
    now apply (Hdone _ (Rejected (JS.TypeError message))).
Qed.

(** ** Ticks behind a closed gate *)

Lemma microtasks_of_quiescent (w : World) :
  Forall quiescent (tasks w) -> microtasks w = w.
Proof.
  intros Hq. unfold microtasks. rewrite (reactions_of_quiescent _ Hq).
  replace (flat_map (fun task => snd (run_reaction task)) (tasks w)) with (@nil LogEntry).
  - rewrite app_nil_r. now destruct w.
  - induction Hq as [| task ts Hq _ IH]; [reflexivity |].
    cbn [flat_map]. now rewrite (run_reaction_quiescent task Hq), <- IH.
Qed.

Lemma closed_run (inputs : list TickInput) :
  forall sw : Scheduler * World,
    Forall (fun input => input_gate_closed input = true) inputs ->
    Forall quiescent (tasks (snd sw)) ->
    nextScheduledCheckTime (fst (run_ticks inputs sw)) = nextScheduledCheckTime (fst sw)
    /\ snd (run_ticks inputs sw) = snd sw.
Proof.
  induction inputs as [| input rest IH]; intros sw Hclosed Hq; [now split |].
  inversion Hclosed as [| ? ? Hgate Hrest]; subst.
  assert (E : nextScheduledCheckTime (fst (run_tick input sw)) = nextScheduledCheckTime (fst sw)
              /\ snd (run_tick input sw) = snd sw).
  { unfold run_tick, tick. rewrite evaluateTimers_closed by apply Hgate.
    cbn [fst snd nextScheduledCheckTime]. split; [reflexivity |].
    now apply microtasks_of_quiescent. }
  destruct E as [E1 E2].
  cbn [run_ticks fold_left]. fold (run_ticks rest (run_tick input sw)).
  destruct (IH (run_tick input sw) Hrest) as [H1 H2]; [now rewrite E2 |].
  split; congruence.
Qed.

(** X13. Ticks behind a closed gate leave no trace, and the first tick with
    the gate open judges the watermark they kept: when the clock is then
    at most sixty minutes past it, every minute missed meanwhile is checked
    in that one tick; when it is further past, those minutes are dropped
    and the one instant a minute before the reading is checked. *)
Theorem minutes_missed_behind_the_gate
  (closed : list TickInput) (input : TickInput) (sw : Scheduler * World) (wm : Z) :
  Forall (fun input => input_gate_closed input = true) closed ->
  input_gate_closed input = false ->
  Forall quiescent (tasks (snd sw)) ->
  nextScheduledCheckTime (fst sw) = Some wm ->
  nextScheduledCheckTime (fst (run_ticks closed sw)) = Some wm
  /\ snd (run_ticks closed sw) = snd sw
  /\ (wm <= tick_now input -> tick_now input - wm <= 60 * MS_PER_MIN ->
      checkDates (snd (run_ticks (closed ++ [input]) sw))
      = checkDates (snd sw) ++ minute_instants wm (elapsed_minutes wm (tick_now input)))
  /\ (60 * MS_PER_MIN < tick_now input - wm ->
      checkDates (snd (run_ticks (closed ++ [input]) sw))
      = checkDates (snd sw) ++ [tick_now input - MS_PER_MIN]).
Proof.
  intros Hclosed Hopen Hq Hwm.
  destruct (closed_run closed sw Hclosed Hq) as [H1 H2].
  rewrite Hwm in H1. split; [exact H1 |]. split; [exact H2 |].
  assert (Erun : run_ticks (closed ++ [input]) sw = run_tick input (run_ticks closed sw)).
  { unfold run_ticks. now rewrite fold_left_app. }
  rewrite Erun. split.
  - intros Hle Hfresh.
    destruct (run_tick_valid input (run_ticks closed sw) wm Hopen H1 Hle Hfresh) as [Hd _].
    now rewrite Hd, H2.
  - intros Hstale. unfold run_tick, tick. rewrite evaluateTimers_open by apply Hopen.
    cbn [fst snd microtasks checkDates nextScheduledCheckTime]. rewrite H1, H2.
    assert (Hre : revalidate (Some wm) (tick_now input) = tick_now input - MS_PER_MIN).
    { unfold revalidate. destruct (wm >? tick_now input) eqn:E1; [reflexivity |].
      destruct (wm <? tick_now input - 60 * MS_PER_MIN) eqn:E2; [reflexivity | exfalso; lia]. }
    rewrite Hre, drain_world. cbn [checkDates].
    rewrite (elapsed_minutes_between (tick_now input - MS_PER_MIN) (tick_now input) 0)
      by (unfold MS_PER_MIN; lia).
    change (Z.to_nat (0 + 1)) with 1%nat. unfold minute_instants. cbn [seq map].
    do 2 f_equal. unfold MS_PER_MIN. lia.
Qed.

End Scheduler.

(** ** Instances on the sample data *)



Lemma watermark_rederivation_witness :
  gate_closed Sample.fresh = false
  /\ nextScheduledCheckTime Sample.fresh = None
  /\ checkDates (snd (evaluateTimers Sample.types Sample.fresh Sample.now Sample.quiet))
     = [1699999941234]
  /\ nextScheduledCheckTime
       (fst (evaluateTimers Sample.types Sample.fresh Sample.now Sample.quiet))
     = Some 1700000001234.
Proof.
  assert (H1 : gate_closed Sample.fresh = false) by reflexivity.
  destruct (watermark_rederivation Sample.types Sample.fresh Sample.now Sample.quiet H1)
    as [_ [Hreset _]].
  destruct (Hreset (or_introl eq_refl)) as [_ [Hdates Hnext]].
  split; [exact H1 |]. split; [reflexivity |]. split; [exact Hdates | exact Hnext].
Defined.

Lemma sync_gate_witness :
  (ntpClient Sample.unsynced <> ValetudoNTPClientSyncedState
   /\ ntpClient Sample.unsynced <> ValetudoNTPClientDisabledState
   /\ embedded (config Sample.unsynced) = JS.boolean true
   /\ evaluateTimers Sample.types Sample.unsynced Sample.later Sample.quiet
      = (Sample.unsynced, Sample.quiet))
  /\ (embedded (config Sample.unsynced_elsewhere) <> JS.boolean true
      /\ gate_closed Sample.unsynced_elsewhere = false
      /\ checkDates
           (snd (evaluateTimers Sample.types Sample.unsynced_elsewhere Sample.later Sample.quiet))
         = [1700000001234; 1700000061234; 1700000121234]).
Proof.
  assert (H1 : ntpClient Sample.unsynced <> ValetudoNTPClientSyncedState) by discriminate.
  assert (H2 : ntpClient Sample.unsynced <> ValetudoNTPClientDisabledState) by discriminate.
  assert (H3 : embedded (config Sample.unsynced) = JS.boolean true) by reflexivity.
  assert (H4 : embedded (config Sample.unsynced_elsewhere) <> JS.boolean true) by discriminate.
  split.
  - split; [exact H1 |]. split; [exact H2 |]. split; [exact H3 |].
    exact (proj1 (sync_gate Sample.types Sample.unsynced Sample.later Sample.quiet) H1 H2 H3).
  - destruct (proj2 (sync_gate Sample.types Sample.unsynced_elsewhere Sample.later Sample.quiet) H4)
      as [Hgate [Hdates _]].
    split; [exact H4 |]. split; [exact Hgate | exact Hdates].
Defined.

Lemma invalid_pre_action_runs_nothing_witness :
  pre_actions Sample.bad_pre_action
  = Some [Sample.pre "fan_speed_control" "low"; Sample.pre "siren" "on";
          Sample.pre "water_usage_control" "low"]
  /\ Exists (fun d => ~ recognized_pre_action Sample.types d)
       [Sample.pre "fan_speed_control" "low"; Sample.pre "siren" "on";
        Sample.pre "water_usage_control" "low"]
  /\ forall checkDate rs,
       task_invoked (replay (start Sample.types checkDate Sample.bad_pre_action) rs) = [].
Proof.
  assert (H1 : pre_actions Sample.bad_pre_action
               = Some [Sample.pre "fan_speed_control" "low"; Sample.pre "siren" "on";
                       Sample.pre "water_usage_control" "low"]) by reflexivity.
  assert (H2 : Exists (fun d => ~ recognized_pre_action Sample.types d)
                 [Sample.pre "fan_speed_control" "low"; Sample.pre "siren" "on";
                  Sample.pre "water_usage_control" "low"]).
  { apply Exists_cons_tl. apply Exists_cons_hd.
    intros [H | [H | H]]; discriminate H. }
  split; [exact H1 |]. split; [exact H2 |].
  exact (proj2 (invalid_pre_action_runs_nothing Sample.types Sample.bad_pre_action _ H1 H2)).
Defined.

Lemma dispatch_iff_due_witness :
  (exists task,
     In task (tasks (snd (evaluateTimers Sample.types Sample.running Sample.later Sample.quiet)))
     /\ task_timer task = Sample.plain /\ task_checkDate task = Sample.now)
  /\ ~ (exists task,
          In task (tasks (snd (evaluateTimers Sample.types Sample.running Sample.later
                                 Sample.quiet)))
          /\ task_timer task = Sample.disabled /\ task_checkDate task = Sample.now).
Proof.
  destruct (dispatch_iff_due Sample.types Sample.running Sample.later Sample.quiet)
    as [ts [Hdates [Htasks Hiff]]].
  rewrite Htasks. cbn [Sample.quiet tasks app].
  assert (Hts : In Sample.now ts).
  { vm_compute in Hdates. rewrite <- Hdates. left. reflexivity. }
  split.
  - apply (Hiff Sample.now Sample.plain Hts).
    + right. left. reflexivity.
    + split; [reflexivity |]. split; [left; reflexivity |]. split; reflexivity.
  - intros Hex. apply (Hiff Sample.now Sample.disabled Hts) in Hex.
    + destruct Hex as [Henabled _]. discriminate Henabled.
    + right. right. left. reflexivity.
Defined.

Lemma pipeline_runs_prefix_in_order_witness :
  recognized_action Sample.types Sample.staged
  /\ Forall (fun d => recognized_pre_action Sample.types d /\ pre_action_params d <> None)
       (pre_action_definitions Sample.staged)
  /\ exists a ps,
       new_action Sample.types Sample.staged = Some a
       /\ Forall2 (fun d p => new_pre_action Sample.types d = Ret (Some p))
            (pre_action_definitions Sample.staged) ps
       /\ task_invoked
            (replay (start Sample.types Sample.now Sample.staged)
               [Fulfilled; Rejected (JS.Rejection "robot unreachable"); Fulfilled])
          = firstn 2 (map RunPreAction ps ++ [RunAction a])
       /\ task_promise
            (replay (start Sample.types Sample.now Sample.staged)
               [Fulfilled; Rejected (JS.Rejection "robot unreachable"); Fulfilled])
          = Done (Rejected (JS.Rejection "robot unreachable")).
Proof.
  assert (H1 : recognized_action Sample.types Sample.staged).
  { exists Sample.segment_cleanup. split; [reflexivity | right; reflexivity]. }
  assert (H2 : Forall (fun d => recognized_pre_action Sample.types d
                                /\ pre_action_params d <> None)
                 (pre_action_definitions Sample.staged)).
  { apply Forall_cons; [split; [right; right; reflexivity | discriminate] |].
    apply Forall_cons; [split; [left; reflexivity | discriminate] |].
    apply Forall_nil. }
  split; [exact H1 |]. split; [exact H2 |].
  destruct (pipeline_runs_prefix_in_order Sample.types Sample.staged H1 H2)
    as [a [ps [Ha [Hps Hrun]]]].
  exists a, ps. split; [exact Ha |]. split; [exact Hps |].
  destruct (Hrun Sample.now
              [Fulfilled; Rejected (JS.Rejection "robot unreachable"); Fulfilled])
    as [Hinv [_ [Hfail _]]].
  split; [exact Hinv |].
  apply Hfail; [| reflexivity].
  cbn [fulfilled_prefix]. rewrite length_app, length_map. cbn [List.length].
  apply Forall2_length in Hps. rewrite <- Hps. cbn. lia.
Defined.

Lemma failures_stay_within_their_pipeline_witness :
  gate_closed Sample.running = false
  /\ nextScheduledCheckTime (fst (tick Sample.types Sample.running Sample.later Sample.quiet))
     = Some 1700000181234
  /\ nth_error
       (tasks (run_events
                 [(0%nat, Rejected (JS.Rejection "robot unreachable")); (1%nat, Fulfilled)]
                 (snd (tick Sample.types Sample.running Sample.later Sample.quiet)))) 1
     = option_map (fun task => replay task [Fulfilled])
         (nth_error (tasks (snd (tick Sample.types Sample.running Sample.later
                                   Sample.quiet))) 1).
Proof.
  assert (H1 : gate_closed Sample.running = false) by reflexivity.
  destruct (failures_stay_within_their_pipeline
              Sample.types Sample.running Sample.later Sample.quiet)
    as [[ts [_ [_ Hopen]]] [_ Hevents]].
  destruct (Hopen H1) as [_ [Hnext _]].
  split; [exact H1 |]. split; [exact Hnext |].
  exact (proj2 (Hevents [(0%nat, Rejected (JS.Rejection "robot unreachable"));
                         (1%nat, Fulfilled)]) 1%nat).
Defined.

Lemma watermark_keeps_clock_phase_witness :
  nextScheduledCheckTime
    (fst (run_ticks Sample.types [Sample.first_tick; Sample.second_tick]
            (constructor (Sample.configuration (JS.boolean true) Sample.everyone)
               ValetudoNTPClientSyncedState, Sample.quiet)))
  = Some 1700000121234
  /\ exists input,
       In input [Sample.first_tick; Sample.second_tick]
       /\ 1700000121234 mod MS_PER_MIN = tick_now input mod MS_PER_MIN.
Proof.
  assert (H1 : nextScheduledCheckTime
                 (fst (run_ticks Sample.types [Sample.first_tick; Sample.second_tick]
                         (constructor (Sample.configuration (JS.boolean true) Sample.everyone)
                            ValetudoNTPClientSyncedState, Sample.quiet)))
               = Some 1700000121234) by reflexivity.
  split; [exact H1 |].
  exact (proj1 (watermark_keeps_clock_phase Sample.types _ _ _ _ _ H1)).
Defined.

Lemma missing_pre_actions_as_empty_witness :
  pre_actions Sample.no_pre_actions = None
  /\ executeTimer Sample.types Sample.no_pre_actions
     = executeTimer Sample.types (with_pre_actions Sample.no_pre_actions (Some []))
  /\ executeTimer Sample.types Sample.no_pre_actions
     = await_run (RunAction ValetudoFullCleanupTimerAction).
Proof.
  assert (H1 : pre_actions Sample.no_pre_actions = None) by reflexivity.
  destruct (missing_pre_actions_as_empty Sample.types Sample.no_pre_actions H1)
    as [Hsame Hrun].
  split; [exact H1 |]. split; [exact Hsame |].
  exact (proj1 (Hrun ValetudoFullCleanupTimerAction eq_refl)).
Defined.

(** A watermark one second behind the clock is before it: the loop checks
    that instant once and leaves the watermark 59 s ahead of the clock. *)
Example watermark_one_second_behind :
  checkDates
    (snd (evaluateTimers Sample.types
            (Sample.scheduler (JS.boolean true) ValetudoNTPClientSyncedState
               Sample.everyone (Some (Sample.now - 1000)))
            Sample.now Sample.quiet))
  = [1700000000234]
  /\ nextScheduledCheckTime
       (fst (evaluateTimers Sample.types
               (Sample.scheduler (JS.boolean true) ValetudoNTPClientSyncedState
                  Sample.everyone (Some (Sample.now - 1000)))
               Sample.now Sample.quiet))
     = Some 1700000060234.
Proof. split; reflexivity. Qed.

(** Five timers share the minute 22:13; the first pre-action of [staged] is
    rejected, the cleanup of [plain] is fulfilled. *)
Example one_rejection_among_due_timers :
  map (fun task => (id (task_timer task), task_invoked task))
    (tasks (run_events
              [(0%nat, Rejected (JS.Rejection "robot unreachable")); (1%nat, Fulfilled)]
              (snd (tick Sample.types Sample.running (Sample.now + 1) Sample.quiet))))
  = [("staged",
      [RunPreAction (ValetudoOperationModeControlTimerPreAction (JS.str "mop"))]);
     ("plain", [RunAction ValetudoFullCleanupTimerAction]);
     ("no_action", []);
     ("bad_action", [])]
  /\ logger (run_events
               [(0%nat, Rejected (JS.Rejection "robot unreachable")); (1%nat, Fulfilled)]
               (snd (tick Sample.types Sample.running (Sample.now + 1) Sample.quiet)))
     = [LogInfo "Executing timer staged";
        LogInfo "Executing timer plain";
        LogInfo "Executing timer no_action";
        LogInfo "Executing timer bad_action";
        LogWarn "Error while executing timer bad_action"
          "Couldn't find timer action for type: goto_location";
        LogError "Error while executing timer no_action"
          (JS.TypeError "Cannot read properties of undefined (reading 'type')");
        LogError "Error while executing timer staged" (JS.Rejection "robot unreachable")]
  /\ nextScheduledCheckTime
       (fst (tick Sample.types Sample.running (Sample.now + 1) Sample.quiet))
     = Some 1700000061234.
Proof. repeat split. Qed.

(** C9 as stated fails: the first tick of a fresh scheduler at a clock
    reading 21.234 s into a minute re-derives the watermark to a value with
    that phase and leaves it at the reading itself. *)
Lemma watermark_off_minute_boundary :
  revalidate None Sample.now = 1699999941234
  /\ ~ minute_boundary 1699999941234
  /\ nextScheduledCheckTime
       (fst (run_ticks Sample.types [Sample.first_tick]
               (constructor (Sample.configuration (JS.boolean true) Sample.everyone)
                  ValetudoNTPClientSyncedState, Sample.quiet)))
     = Some 1700000001234
  /\ ~ minute_boundary 1700000001234.
Proof.
  split; [reflexivity |]. split; [intros H; discriminate H |].
  split; [reflexivity | intros H; discriminate H].
Qed.

(** C8 on a timer without [action]: the call logs no warning; it rejects
    with the [TypeError] raised while the warning text is built, and the
    only report is the error logged by the reaction of the caller. With an
    action of unknown type the warning is logged. *)
Theorem absent_action_rejects_without_warning :
  spawn Sample.types Sample.now Sample.no_action
  = ({| task_timer := Sample.no_action;
        task_checkDate := Sample.now;
        task_invoked := [];
        task_promise :=
          Settled (Rejected (JS.TypeError
                     "Cannot read properties of undefined (reading 'type')")) |}, [])
  /\ logger (snd (tick Sample.types
                    (Sample.scheduler (JS.boolean true) ValetudoNTPClientSyncedState
                       [Sample.no_action] (Some Sample.now))
                    (Sample.now + 1) Sample.quiet))
     = [LogInfo "Executing timer no_action";
        LogError "Error while executing timer no_action"
          (JS.TypeError "Cannot read properties of undefined (reading 'type')")]
  /\ spawn Sample.types Sample.now Sample.bad_action
     = ({| task_timer := Sample.bad_action;
           task_checkDate := Sample.now;
           task_invoked := [];
           task_promise := Settled Fulfilled |},
        [LogWarn "Error while executing timer bad_action"
           "Couldn't find timer action for type: goto_location"]).
Proof. repeat split. Qed.

(** ** The Roborock S5 robot class *)

Lemma property_define {V : Type} (o : list (string * V)) (key key' : string) (v : V) :
  RoborockS5.property (RoborockS5.define key v o) key'
  = if String.eqb key key' then Some v else RoborockS5.property o key'.
Proof.
  induction o as [| [k0 v0] o IH]; cbn [RoborockS5.define RoborockS5.property].
  - reflexivity.
  - destruct (String.eqb k0 key) eqn:E0; cbn [RoborockS5.property].
    + apply String.eqb_eq in E0. subst k0. now destruct (String.eqb key key').
    + rewrite IH. destruct (String.eqb k0 key') eqn:E1; [| reflexivity].
      apply String.eqb_eq in E1. subst k0. now rewrite String.eqb_sym, E0.
Qed.

Lemma property_assign_source {V : Type} (source : list (string * V)) :
  forall (target : list (string * V)) (key : string),
    NoDup (map fst source) ->
    RoborockS5.property
      (fold_left (fun t kv => RoborockS5.define (fst kv) (snd kv) t) source target) key
    = match RoborockS5.property source key with
      | Some v => Some v
      | None => RoborockS5.property target key
      end.
Proof.
  induction source as [| [k0 v0] source IH]; intros target key Hnodup; [reflexivity |].
  inversion Hnodup as [| ? ? Hnotin Hrest]; subst.
  cbn [fold_left fst snd RoborockS5.property]. rewrite (IH _ key Hrest), property_define.
  destruct (String.eqb k0 key) eqn:E; [| reflexivity].
  apply String.eqb_eq in E. subst k0.
  destruct (RoborockS5.property source key) as [v |] eqn:Ep; [| reflexivity].
  exfalso. apply Hnotin. clear -Ep. induction source as [| [k1 v1] source IH]; [discriminate |].
  cbn [RoborockS5.property] in Ep. cbn [map fst]. destruct (String.eqb k1 key) eqn:E.
  - left. now apply String.eqb_eq.
  - right. now apply IH.
Qed.

(** X14. The S5 class claims a robot only on an exact match: the test
    answers [true] exactly when the device configuration is an object whose
    [model] is the string roborock.vacuum.s5, and [false], without raising,
    for a missing configuration and for every other value. *)
Theorem auto_detection_exact (deviceConf : RoborockS5.Ref) :
  RoborockS5.IMPLEMENTATION_AUTO_DETECTION_HANDLER deviceConf = true
  <-> exists properties,
        deviceConf = RoborockS5.Object properties
        /\ RoborockS5.dot_model deviceConf = JS.str "roborock.vacuum.s5".
Proof.
  unfold RoborockS5.IMPLEMENTATION_AUTO_DETECTION_HANDLER. split.
  - intros H. destruct deviceConf as [v | properties].
    + exfalso. destruct (RoborockS5.ToBoolean (RoborockS5.Primitive v)) eqn:E.
      * cbn [RoborockS5.dot_model JS.strict_equals RoborockS5.ToBoolean negb] in H.
        discriminate H.
      * rewrite E in H. discriminate H.
    + exists properties. split; [reflexivity |].
      cbn [RoborockS5.ToBoolean] in H. rewrite negb_involutive in H.
      now apply strict_equals_str.
  - intros [properties [-> Hmodel]]. cbn [RoborockS5.ToBoolean].
    rewrite negb_involutive. now apply strict_equals_str.
Qed.

(** X15. With the five intensity keys distinct, the fan speed table is a
    one-to-one map from them onto the codes 101 to 105: each key has its
    code, no other key has one, and no two keys share a code. *)
Theorem fan_speeds_one_to_one (I : RoborockS5.INTENSITY) :
  NoDup [RoborockS5.LOW I; RoborockS5.MEDIUM I; RoborockS5.HIGH I;
         RoborockS5.MAX I; RoborockS5.OFF I] ->
  RoborockS5.property (RoborockS5.FAN_SPEEDS I) (RoborockS5.LOW I) = Some 101
  /\ RoborockS5.property (RoborockS5.FAN_SPEEDS I) (RoborockS5.MEDIUM I) = Some 102
  /\ RoborockS5.property (RoborockS5.FAN_SPEEDS I) (RoborockS5.HIGH I) = Some 103
  /\ RoborockS5.property (RoborockS5.FAN_SPEEDS I) (RoborockS5.MAX I) = Some 104
  /\ RoborockS5.property (RoborockS5.FAN_SPEEDS I) (RoborockS5.OFF I) = Some 105
  /\ (forall key code,
        RoborockS5.property (RoborockS5.FAN_SPEEDS I) key = Some code ->
        In key [RoborockS5.LOW I; RoborockS5.MEDIUM I; RoborockS5.HIGH I;
                RoborockS5.MAX I; RoborockS5.OFF I]
        /\ 101 <= code <= 105)
  /\ (forall key key' code,
        RoborockS5.property (RoborockS5.FAN_SPEEDS I) key = Some code ->
        RoborockS5.property (RoborockS5.FAN_SPEEDS I) key' = Some code ->
        key = key').
Proof.
  intros Hnodup.
  assert (Hlookup : forall key,
             RoborockS5.property (RoborockS5.FAN_SPEEDS I) key
             = if String.eqb (RoborockS5.OFF I) key then Some 105
               else if String.eqb (RoborockS5.MAX I) key then Some 104
               else if String.eqb (RoborockS5.HIGH I) key then Some 103
               else if String.eqb (RoborockS5.MEDIUM I) key then Some 102
               else if String.eqb (RoborockS5.LOW I) key then Some 101
               else None).
  { intros key. unfold RoborockS5.FAN_SPEEDS. now rewrite !property_define. }
  assert (Hne : forall a b, a <> b -> String.eqb a b = false).
  { intros a b Hab. now apply String.eqb_neq. }
  inversion Hnodup as [| ? ? N1 H1]; subst. inversion H1 as [| ? ? N2 H2]; subst.
  inversion H2 as [| ? ? N3 H3]; subst. inversion H3 as [| ? ? N4 H4]; subst.
  cbn [In] in N1, N2, N3, N4.
  assert (E12 : RoborockS5.LOW I <> RoborockS5.MEDIUM I) by intuition congruence.
  assert (E13 : RoborockS5.LOW I <> RoborockS5.HIGH I) by intuition congruence.
  assert (E14 : RoborockS5.LOW I <> RoborockS5.MAX I) by intuition congruence.
  assert (E15 : RoborockS5.LOW I <> RoborockS5.OFF I) by intuition congruence.
  assert (E23 : RoborockS5.MEDIUM I <> RoborockS5.HIGH I) by intuition congruence.
  assert (E24 : RoborockS5.MEDIUM I <> RoborockS5.MAX I) by intuition congruence.
  assert (E25 : RoborockS5.MEDIUM I <> RoborockS5.OFF I) by intuition congruence.
  assert (E34 : RoborockS5.HIGH I <> RoborockS5.MAX I) by intuition congruence.
  assert (E35 : RoborockS5.HIGH I <> RoborockS5.OFF I) by intuition congruence.
  assert (E45 : RoborockS5.MAX I <> RoborockS5.OFF I) by intuition congruence.
  assert (Hcases : forall key code,
             RoborockS5.property (RoborockS5.FAN_SPEEDS I) key = Some code ->
             (key = RoborockS5.OFF I /\ code = 105)
             \/ (key = RoborockS5.MAX I /\ code = 104)
             \/ (key = RoborockS5.HIGH I /\ code = 103)
             \/ (key = RoborockS5.MEDIUM I /\ code = 102)
             \/ (key = RoborockS5.LOW I /\ code = 101)).
  { intros key code H. rewrite Hlookup in H.
    destruct (String.eqb (RoborockS5.OFF I) key) eqn:E5;
      [apply String.eqb_eq in E5; left; split; congruence |].
    destruct (String.eqb (RoborockS5.MAX I) key) eqn:E4;
      [apply String.eqb_eq in E4; right; left; split; congruence |].
    destruct (String.eqb (RoborockS5.HIGH I) key) eqn:E3;
      [apply String.eqb_eq in E3; do 2 right; left; split; congruence |].
    destruct (String.eqb (RoborockS5.MEDIUM I) key) eqn:E2;
      [apply String.eqb_eq in E2; do 3 right; left; split; congruence |].
    destruct (String.eqb (RoborockS5.LOW I) key) eqn:E1;
      [apply String.eqb_eq in E1; do 4 right; split; congruence | discriminate H]. }
  repeat split.
  - rewrite Hlookup, !Hne by congruence. now rewrite String.eqb_refl.
  - rewrite Hlookup, !Hne by congruence. now rewrite String.eqb_refl.
  - rewrite Hlookup, !Hne by congruence. now rewrite String.eqb_refl.
  - rewrite Hlookup, !Hne by congruence. now rewrite String.eqb_refl.
  - rewrite Hlookup. now rewrite String.eqb_refl.
  - destruct (Hcases key code H) as [[-> _] | [[-> _] | [[-> _] | [[-> _] | [-> _]]]]];
      cbn [In]; tauto.
  - destruct (Hcases key code H) as [[_ ->] | [[_ ->] | [[_ ->] | [[_ ->] | [_ ->]]]]]; lia.
  - destruct (Hcases key code H) as [[_ ->] | [[_ ->] | [[_ ->] | [[_ ->] | [_ ->]]]]]; lia.
  - intros key key' code H H'.
    destruct (Hcases key code H) as [[-> Ec] | [[-> Ec] | [[-> Ec] | [[-> Ec] | [-> Ec]]]]];
      destruct (Hcases key' code H')
        as [[-> Ec'] | [[-> Ec'] | [[-> Ec'] | [[-> Ec'] | [-> Ec']]]]];
      try reflexivity; exfalso; lia.
Qed.

(** X16. The base constructor always gets the S5 fan speed table: whatever
    the caller's options hold under [fanSpeeds], the options handed on hold
    the table there, and every other option of the caller as it was. *)
Theorem super_options_carry_the_table {V : Type} (I : RoborockS5.INTENSITY)
  (options : list (string * RoborockS5.OptionValue V)) :
  NoDup (map fst options) ->
  RoborockS5.property (RoborockS5.super_options I options) "fanSpeeds"
  = Some (RoborockS5.Table (RoborockS5.FAN_SPEEDS I))
  /\ forall key, key <> "fanSpeeds" ->
       RoborockS5.property (RoborockS5.super_options I options) key
       = RoborockS5.property options key.
Proof.
  intros Hnodup. unfold RoborockS5.super_options, RoborockS5.Object_assign.
  cbn [fold_left fst snd]. split.
  - now rewrite property_define, String.eqb_refl.
  - intros key Hkey. rewrite property_define.
    rewrite (proj2 (String.eqb_neq "fanSpeeds" key)) by congruence.
    rewrite (property_assign_source options [] key Hnodup).
    now destruct (RoborockS5.property options key).
Qed.

(** ** Instances of the further statements *)

Lemma tick_drains_to_the_present_witness :
  gate_closed Sample.running = false
  /\ exists wm,
       nextScheduledCheckTime
         (fst (evaluateTimers Sample.types Sample.running Sample.later Sample.quiet))
       = Some wm
       /\ Sample.later <= wm < Sample.later + MS_PER_MIN.
Proof.
  assert (H1 : gate_closed Sample.running = false) by reflexivity.
  split; [exact H1 |].
  destruct (tick_drains_to_the_present Sample.types Sample.running Sample.later Sample.quiet H1)
    as [wm [ts [Hwm [Hb _]]]].
  exists wm. split; [exact Hwm | exact Hb].
Defined.

Lemma paced_ticks_check_every_minute_once_witness :
  Forall (fun input => input_gate_closed input = false)
    [Sample.first_tick; Sample.second_tick]
  /\ paced (tick_now Sample.first_tick) [Sample.second_tick]
  /\ checkDates
       (snd (run_ticks Sample.types [Sample.first_tick; Sample.second_tick]
               (constructor (Sample.configuration (JS.boolean true) Sample.everyone)
                  ValetudoNTPClientSyncedState, Sample.quiet)))
     = [1699999941234; 1700000001234; 1700000061234].
Proof.
  assert (H1 : Forall (fun input => input_gate_closed input = false)
                 [Sample.first_tick; Sample.second_tick]).
  { apply Forall_cons; [reflexivity |]. apply Forall_cons; [reflexivity |]. apply Forall_nil. }
  assert (H2 : paced (tick_now Sample.first_tick) [Sample.second_tick]).
  { cbn [paced]. split; [| exact I]. split; vm_compute; discriminate. }
  split; [exact H1 |]. split; [exact H2 |].
  exact (proj1 (paced_ticks_check_every_minute_once Sample.types
                  Sample.first_tick [Sample.second_tick]
                  (Sample.configuration (JS.boolean true) Sample.everyone)
                  ValetudoNTPClientSyncedState Sample.quiet H1 H2)).
Defined.

Lemma due_timers_by_minute_and_week_witness :
  Sample.now / UTCDate.msPerMinute = (Sample.now + 30000) / UTCDate.msPerMinute
  /\ due_timers (Sample.store Sample.everyone) Sample.now
     = due_timers (Sample.store Sample.everyone) (Sample.now + 30000).
Proof.
  assert (H1 : Sample.now / UTCDate.msPerMinute = (Sample.now + 30000) / UTCDate.msPerMinute)
    by reflexivity.
  split; [exact H1 |].
  exact (proj1 (due_timers_by_minute_and_week (Sample.store Sample.everyone)
                  Sample.now (Sample.now + 30000)) H1).
Defined.

Lemma due_window_witness :
  0 <= hour Sample.plain < 24
  /\ 0 <= minute Sample.plain < 60
  /\ is_due (checkTime_of Sample.now) Sample.plain = true.
Proof.
  assert (H1 : 0 <= hour Sample.plain < 24) by (split; [vm_compute; discriminate | reflexivity]).
  assert (H2 : 0 <= minute Sample.plain < 60) by (split; [vm_compute; discriminate | reflexivity]).
  split; [exact H1 |]. split; [exact H2 |].
  apply (proj2 (due_window Sample.plain Sample.now H1 H2)).
  split; [reflexivity |]. exists 19675. split; [left; reflexivity |].
  split; vm_compute; [discriminate | reflexivity].
Defined.

Lemma malformed_schedule_never_due_witness :
  24 <= hour Scenario.hour_24
  /\ is_due (checkTime_of Sample.now) Scenario.hour_24 = false.
Proof.
  assert (H1 : 24 <= hour Scenario.hour_24) by (vm_compute; discriminate).
  split; [exact H1 |].
  exact (malformed_schedule_never_due Scenario.hour_24 Sample.now (or_intror (or_introl H1))).
Defined.

Lemma pre_action_without_params_rejects_witness :
  new_action Sample.types Scenario.no_params <> None
  /\ pre_actions Scenario.no_params
     = Some ([Sample.pre "fan_speed_control" "low"]
               ++ Scenario.water_without_params :: [Sample.pre "siren" "on"])
  /\ recognized_pre_action Sample.types Scenario.water_without_params
  /\ pre_action_params Scenario.water_without_params = None
  /\ executeTimer Sample.types Scenario.no_params
     = Throw (JS.TypeError "Cannot read properties of undefined (reading 'value')").
Proof.
  assert (H1 : new_action Sample.types Scenario.no_params <> None) by discriminate.
  assert (H2 : pre_actions Scenario.no_params
               = Some ([Sample.pre "fan_speed_control" "low"]
                         ++ Scenario.water_without_params :: [Sample.pre "siren" "on"]))
    by reflexivity.
  assert (H3 : Forall (fun d => recognized_pre_action Sample.types d
                                /\ pre_action_params d <> None)
                 [Sample.pre "fan_speed_control" "low"]).
  { apply Forall_cons; [split; [left; reflexivity | discriminate] | apply Forall_nil]. }
  assert (H4 : recognized_pre_action Sample.types Scenario.water_without_params)
    by (right; left; reflexivity).
  assert (H5 : pre_action_params Scenario.water_without_params = None) by reflexivity.
  split; [exact H1 |]. split; [exact H2 |]. split; [exact H4 |]. split; [exact H5 |].
  exact (proj1 (pre_action_without_params_rejects Sample.types Scenario.no_params
                  _ _ _ H1 H2 H3 H4 H5)).
Defined.

Lemma pipelines_undisturbed_by_later_ticks_witness :
  Forall quiescent (tasks (one_running Sample.types))
  /\ nth_error (tasks (one_running Sample.types)) 0
     = Some (start Sample.types Sample.now Sample.plain)
  /\ nth_error
       (tasks (snd (run_macrotasks Sample.types
                      [IntervalFires (Scenario.synced_tick (Sample.now + 1));
                       OperationSettles 1 (Rejected (JS.Rejection "robot unreachable"));
                       OperationSettles 0 Fulfilled;
                       IntervalFires (Scenario.synced_tick (Sample.now + 60001))]
                      (Sample.running, one_running Sample.types)))) 0
     = Some (replay (start Sample.types Sample.now Sample.plain) [Fulfilled]).
Proof.
  assert (H1 : Forall quiescent (tasks (one_running Sample.types))).
  { apply Forall_cons; [exact I | apply Forall_nil]. }
  assert (H2 : nth_error (tasks (one_running Sample.types)) 0
               = Some (start Sample.types Sample.now Sample.plain)) by reflexivity.
  split; [exact H1 |]. split; [exact H2 |].
  exact (pipelines_undisturbed_by_later_ticks Sample.types _
           (Sample.running, one_running Sample.types) 0%nat _ H1 H2).
Defined.

Lemma tick_ignores_running_pipelines_witness :
  Forall quiescent (tasks (one_running Sample.types))
  /\ tasks (snd (tick Sample.types Sample.running (Sample.now + 1) (one_running Sample.types)))
     = tasks (one_running Sample.types)
         ++ tasks (snd (tick Sample.types Sample.running (Sample.now + 1) nothing_yet)).
Proof.
  assert (H1 : Forall quiescent (tasks (one_running Sample.types))).
  { apply Forall_cons; [exact I | apply Forall_nil]. }
  split; [exact H1 |].
  exact (proj1 (tick_ignores_running_pipelines Sample.types Sample.running (Sample.now + 1)
                  (one_running Sample.types) H1)).
Defined.

Lemma minutes_missed_behind_the_gate_witness :
  Forall (fun input => input_gate_closed input = true)
    [Scenario.unsynced_tick (Sample.now + 60000); Scenario.unsynced_tick (Sample.now + 120000)]
  /\ input_gate_closed (Scenario.synced_tick (Sample.now + 180001)) = false
  /\ checkDates
       (snd (run_ticks Sample.types
               ([Scenario.unsynced_tick (Sample.now + 60000);
                 Scenario.unsynced_tick (Sample.now + 120000)]
                  ++ [Scenario.synced_tick (Sample.now + 180001)])
               (Sample.running, Sample.quiet)))
     = [1700000001234; 1700000061234; 1700000121234; 1700000181234]
  /\ checkDates
       (snd (run_ticks Sample.types
               ([Scenario.unsynced_tick (Sample.now + 60000);
                 Scenario.unsynced_tick (Sample.now + 120000)]
                  ++ [Scenario.synced_tick (Sample.now + 4000000)])
               (Sample.running, Sample.quiet)))
     = [1700003941234].
Proof.
  assert (H1 : Forall (fun input => input_gate_closed input = true)
                 [Scenario.unsynced_tick (Sample.now + 60000);
                  Scenario.unsynced_tick (Sample.now + 120000)]).
  { apply Forall_cons; [reflexivity |]. apply Forall_cons; [reflexivity |]. apply Forall_nil. }
  assert (H2 : forall t, input_gate_closed (Scenario.synced_tick t) = false)
    by (intros t; reflexivity).
  assert (H3 : Forall quiescent (tasks (snd (Sample.running, Sample.quiet))))
    by apply Forall_nil.
  assert (H4 : nextScheduledCheckTime (fst (Sample.running, Sample.quiet)) = Some Sample.now)
    by reflexivity.
  split; [exact H1 |]. split; [apply H2 |]. split.
  - destruct (minutes_missed_behind_the_gate Sample.types _
                (Scenario.synced_tick (Sample.now + 180001))
                (Sample.running, Sample.quiet) Sample.now H1 (H2 _) H3 H4)
      as [_ [_ [Hburst _]]].
    apply Hburst; vm_compute; discriminate.
  - destruct (minutes_missed_behind_the_gate Sample.types _
                (Scenario.synced_tick (Sample.now + 4000000))
                (Sample.running, Sample.quiet) Sample.now H1 (H2 _) H3 H4)
      as [_ [_ [_ Hdrop]]].
    apply Hdrop. vm_compute. reflexivity.
Defined.

Lemma fan_speeds_one_to_one_witness :
  NoDup ["low"; "medium"; "high"; "max"; "off"]
  /\ RoborockS5.property (RoborockS5.FAN_SPEEDS Scenario.intensity) "max" = Some 104
  /\ forall key, RoborockS5.property (RoborockS5.FAN_SPEEDS Scenario.intensity) key = Some 105 ->
                 key = "off".
Proof.
  assert (H1 : NoDup ["low"; "medium"; "high"; "max"; "off"]).
  { repeat (apply NoDup_cons; [cbn [In]; intuition discriminate |]). apply NoDup_nil. }
  split; [exact H1 |].
  destruct (fan_speeds_one_to_one Scenario.intensity H1)
    as [_ [_ [_ [Hmax [Hoff [_ Hinj]]]]]].
  split; [exact Hmax |].
  intros key Hkey. exact (Hinj key "off" 105 Hkey Hoff).
Defined.

Lemma super_options_carry_the_table_witness :
  NoDup (map fst Scenario.options)
  /\ RoborockS5.property (RoborockS5.super_options Scenario.intensity Scenario.options)
       "fanSpeeds"
     = Some (RoborockS5.Table (RoborockS5.FAN_SPEEDS Scenario.intensity))
  /\ RoborockS5.property (RoborockS5.super_options Scenario.intensity Scenario.options)
       "config"
     = Some (RoborockS5.Given 1%nat).
Proof.
  assert (H1 : NoDup (map fst Scenario.options)).
  { repeat (apply NoDup_cons; [cbn [In]; intuition discriminate |]). apply NoDup_nil. }
  split; [exact H1 |].
  destruct (super_options_carry_the_table Scenario.intensity Scenario.options H1)
    as [Htable Hrest].
  split; [exact Htable |].
  exact (Hrest "config" ltac:(discriminate)).
Defined.
